(** * The packaging scripts of ml-project-template

    The repository holds two build scripts:
    - variant A, [project_files/vanilla/setup.py], which reads the version
      out of [project/__init__.py] with a regular expression;
    - variant B, [setup.py], whose version is a literal.

    Both read [README.md], [requirements.txt] and [requirements-dev.txt]
    and hand the values to [setuptools.setup].

    The scripts are straight-line code with two effects: a file read may
    raise, and [setup] is called.  They are embedded in a small monad that
    threads a trace of the steps performed and may stop with an
    exception.  The library functions the scripts call ([str.splitlines],
    [re.search] with [re.MULTILINE]) are written out as functions over
    Python strings. *)

From Stdlib Require Import String Ascii.
From stdpp Require Import gmap list strings.

Local Open Scope N_scope.
Local Open Scope list_scope.

(** ** Python strings *)

(** A [str] is a sequence of Unicode code points. *)
Definition char : Type := N.
Abbreviation pystr := (list N).

(** A string literal of the source. *)
Definition lit (s : string) : pystr :=
  map N_of_ascii (list_ascii_of_string s).

Definition LF : char := 10.
Definition CR : char := 13.
Definition QUOTE : char := 34.

(** ** [str.splitlines] *)

(** The line boundaries of [str.splitlines]: \n \r \v \f \x1c \x1d \x1e
    \x85 U+2028 U+2029. *)
Definition is_linebreak (c : char) : bool :=
  bool_decide (c ∈ [10; 13; 11; 12; 28; 29; 30; 133; 8232; 8233]).

(** [s.splitlines()], keepends false.  [acc] holds, reversed, the
    characters of the line being scanned (the slice from j to i of the
    library loop).  A line is appended at each line boundary, \r\n counting
    as one, and at the end of the string when characters are pending. *)
Fixpoint splitlines_from (acc : pystr) (s : pystr) : list pystr :=
  match s with
  | [] => match acc with [] => [] | _ => [rev acc] end
  | c :: rest =>
      if is_linebreak c then
        rev acc ::
          match rest with
          | c' :: rest' =>
              if bool_decide (c = CR) && bool_decide (c' = LF)
              then splitlines_from [] rest'
              else splitlines_from [] rest
          | [] => splitlines_from [] rest
          end
      else splitlines_from (c :: acc) rest
  end.

Definition splitlines (s : pystr) : list pystr := splitlines_from [] s.

(** ** [re.search] on the version pattern *)

(** The compiled form of a pattern, as far as the version pattern needs
    it: a flat sequence of operations. *)
Inductive op : Type :=
  | AT_BEGINNING_LINE            (* ^ under re.MULTILINE *)
  | LITERAL (c : char)           (* one given character *)
  | REPEAT_NOT_LITERAL (c : char)  (* [^c]*, greedy *)
  | MARK_OPEN                    (* ( of group 1 *)
  | MARK_CLOSE.                  (* ) of group 1 *)

(** The state of capturing group 1 during a match attempt. *)
Inductive group_state : Type :=
  | Unset
  | Opened (acc : pystr)         (* characters taken so far, reversed *)
  | Closed (text : pystr).

Definition consume (c : char) (g : group_state) : group_state :=
  match g with
  | Opened acc => Opened (c :: acc)
  | _ => g
  end.

Definition close_group (g : group_state) : group_state :=
  match g with
  | Opened acc => Closed (rev acc)
  | _ => g
  end.

(** Under MULTILINE, ^ matches at the start of the string and right after
    each \n.  [prev] is the character before the current position. *)
Definition at_beginning_line (prev : option char) : bool :=
  match prev with
  | None => true
  | Some c => bool_decide (c = LF)
  end.

(** The greedy repeat [[^c]*] followed by the rest of the pattern [k]: it
    first takes one more character, and falls back to [k] at the current
    position when that fails. *)
Fixpoint repeat_not_literal
    (k : option char → pystr → group_state → option group_state)
    (c : char) (prev : option char) (s : pystr) (g : group_state)
    : option group_state :=
  match s with
  | c' :: s' =>
      if bool_decide (c' ≠ c) then
        match repeat_not_literal k c (Some c') s' (consume c' g) with
        | Some r => Some r
        | None => k prev s g
        end
      else k prev s g
  | [] => k prev s g
  end.

(** One match attempt at a fixed position: [prev] is the character before
    it, [s] the text from it on. *)
Fixpoint sre_match (code : list op) (prev : option char) (s : pystr)
    (g : group_state) {struct code} : option group_state :=
  match code with
  | [] => Some g
  | AT_BEGINNING_LINE :: code' =>
      if at_beginning_line prev then sre_match code' prev s g else None
  | LITERAL c :: code' =>
      match s with
      | c' :: s' =>
          if bool_decide (c' = c)
          then sre_match code' (Some c') s' (consume c' g)
          else None
      | [] => None
      end
  | REPEAT_NOT_LITERAL c :: code' =>
      repeat_not_literal (sre_match code') c prev s g
  | MARK_OPEN :: code' => sre_match code' prev s (Opened [])
  | MARK_CLOSE :: code' => sre_match code' prev s (close_group g)
  end.

(** [re.search]: the first position, from the left, at which the pattern
    matches; the end of the string is tried too. *)
Fixpoint search_from (code : list op) (prev : option char) (s : pystr)
    : option group_state :=
  match sre_match code prev s Unset with
  | Some g => Some g
  | None =>
      match s with
      | [] => None
      | c :: s' => search_from code (Some c) s'
      end
  end.

Definition re_search (code : list op) (s : pystr) : option group_state :=
  search_from code None s.

(** [m.group(1)].  Python gives None for a group that took no part in the
    match; group 1 of the version pattern is on the only path through the
    pattern, so it is closed in every match (lemma
    [version_match_closed]). *)
Definition group1 (m : group_state) : pystr :=
  match m with
  | Closed text => text
  | _ => []
  end.

(** The text before the value: [__version__ = ] and the opening double
    quote. *)
Definition version_prefix : pystr := lit "__version__ = " ++ [QUOTE].

(** The pattern of line 24: ^ , the prefix, group 1 holding a greedy run
    of characters other than the double quote, and the closing double
    quote. *)
Definition version_pattern : list op :=
  AT_BEGINNING_LINE :: map LITERAL version_prefix
    ++ [MARK_OPEN; REPEAT_NOT_LITERAL QUOTE; MARK_CLOSE; LITERAL QUOTE].


(** ** Files, exceptions and the trace of a run *)

(** What a script finds under a path.  The content of a readable file is
    the text that [f.read()] returns for it (decoded, after the newline
    translation of text mode); the files are UTF-8 text, so decoding does
    not fail.  [Unreadable] stands for a path that exists and cannot be
    opened or read. *)
Inductive file : Type :=
  | Text (content : pystr)
  | Unreadable.

(** The exceptions a script can stop with. *)
Inductive exn : Type :=
  | FileNotFoundError (path : pystr)
  | PermissionError (path : pystr)
  | AssertionError (msg : pystr).

Definition is_file_access_error (e : exn) : bool :=
  match e with
  | FileNotFoundError _ | PermissionError _ => true
  | AssertionError _ => false
  end.

(** The keyword arguments of the call of [setup].  Variant B passes no
    [setup_requires]. *)
Record setup_kwargs : Type := {
  name : pystr;
  version : pystr;
  description : pystr;
  author : pystr;
  url : pystr;
  long_description : pystr;
  long_description_content_type : pystr;
  python_requires : pystr;
  setup_requires : option (list pystr);
  install_requires : list pystr;
  tests_require : list pystr;
  extras_require : gmap pystr (list pystr)
}.

(** The steps a run performs, in the order it performs them. *)
Inductive event : Type :=
  | EvOpen (path : pystr)
  | EvSearch
  | EvSetup (kw : setup_kwargs).

(** A computation threads the trace and ends in an exception or in a
    value. *)
Definition M (A : Type) : Type := list event → list event * (exn + A).

#[export] Instance M_ret : MRet M := λ A x tr, (tr, inr x).
#[export] Instance M_bind : MBind M := λ A B f m tr,
  match m tr with
  | (tr', inl e) => (tr', inl e)
  | (tr', inr x) => f x tr'
  end.

Definition raise {A} (e : exn) : M A := λ tr, (tr, inl e).
Definition log (ev : event) : M unit := λ tr, (tr ++ [ev], inr tt).

(** [with open(path, "r", encoding="utf-8") as f: ... f.read()] *)
Definition open_read (fs : gmap pystr file) (path : pystr) : M pystr :=
  log (EvOpen path);;
  match fs !! path with
  | Some (Text content) => mret content
  | Some Unreadable => raise (PermissionError path)
  | None => raise (FileNotFoundError path)
  end.

(** [re.search(pattern, text, re.MULTILINE)] as a step of the run. *)
Definition re_search_step (code : list op) (text : pystr)
    : M (option group_state) :=
  log EvSearch;; mret (re_search code text).

(** [setuptools.setup], called with keyword arguments: the call is the
    observable effect. *)
Definition setup (kw : setup_kwargs) : M unit := log (EvSetup kw).

(** ** Variant A: project_files/vanilla/setup.py *)

Module VariantA.

Definition PROJECT_NAME : pystr := lit "project".

Definition version_path : pystr := PROJECT_NAME ++ lit "/__init__.py".

(** The message of the assertion of line 25.  Assertions are executed:
    the interpreter does not run with -O. *)
Definition assert_msg : pystr :=
  lit "Could not find version in " ++ PROJECT_NAME ++ lit "/__init__.py".

Definition script (fs : gmap pystr file) : M unit :=
  long_description ← open_read fs (lit "README.md");
  requirements ← (text ← open_read fs (lit "requirements.txt");
                  mret (splitlines text));
  requirements_dev ← (text ← open_read fs (lit "requirements-dev.txt");
                      mret (splitlines text));
  version_re ← (text ← open_read fs version_path;
                re_search_step version_pattern text);
  match version_re with
  | None => raise (AssertionError assert_msg)
  | Some m =>
      let version := group1 m in
      setup {|
        name := lit "ml-project";
        version := version;
        description := lit "Template repository for ML projects";
        author := lit "Benjamin Bolte";
        url := lit "https://github.com/codekansas/ml-project-template";
        long_description := long_description;
        long_description_content_type := lit "text/markdown";
        python_requires := lit ">=3.10";
        setup_requires :=
          Some [lit "cmake"; lit "mypy"; lit "pybind11"; lit "torch"];
        install_requires := requirements;
        tests_require := requirements_dev;
        extras_require := {[ lit "dev" := requirements_dev ]}
      |}
  end.

End VariantA.

(** ** Variant B: setup.py *)

Module VariantB.

Definition script (fs : gmap pystr file) : M unit :=
  long_description ← open_read fs (lit "README.md");
  requirements ← (text ← open_read fs (lit "requirements.txt");
                  mret (splitlines text));
  requirements_dev ← (text ← open_read fs (lit "requirements-dev.txt");
                      mret (splitlines text));
  setup {|
    name := lit "ml-project";
    version := lit "0.0.1";
    description := lit "Empty template repository for ML projects";
    author := lit "Benjamin Bolte";
    url := lit "https://github.com/codekansas/ml-starter";
    long_description := long_description;
    long_description_content_type := lit "text/markdown";
    python_requires := lit ">=3.10";
    setup_requires := None;
    install_requires := requirements;
    tests_require := requirements_dev;
    extras_require := {[ lit "dev" := requirements_dev ]}
  |}.

End VariantB.

(** ** Observing a run *)

(** A run starts with the empty trace. *)
Definition run (m : M unit) : list event * (exn + unit) := m [].

(** The records [setup] was called with, in order. *)
Definition setup_calls (tr : list event) : list setup_kwargs :=
  omap (λ ev, match ev with EvSetup kw => Some kw | _ => None end) tr.

(** The run ended normally after calling [setup] with [kw], once. *)
Definition invokes (m : M unit) (kw : setup_kwargs) : Prop :=
  (run m).2 = inr tt ∧ setup_calls (run m).1 = [kw].

(** The run stopped with the exception [e]. *)
Definition halts_with (m : M unit) (e : exn) : Prop :=
  (run m).2 = inl e.

(** An event without the record it carries. *)
Inductive step : Type :=
  | OpenFile (path : pystr)
  | Search
  | CallSetup.

Definition step_of (ev : event) : step :=
  match ev with
  | EvOpen path => OpenFile path
  | EvSearch => Search
  | EvSetup _ => CallSetup
  end.

Definition steps (m : M unit) : list step := step_of <$> (run m).1.

(** The order of the statements of each script. *)
Definition order_A : list step :=
  [OpenFile (lit "README.md"); OpenFile (lit "requirements.txt");
   OpenFile (lit "requirements-dev.txt");
   OpenFile VariantA.version_path; Search; CallSetup].

Definition order_B : list step :=
  [OpenFile (lit "README.md"); OpenFile (lit "requirements.txt");
   OpenFile (lit "requirements-dev.txt"); CallSetup].

(** The two scripts under one name. *)
Inductive variant : Type := A | B.

Definition script_of (v : variant) (fs : gmap pystr file) : M unit :=
  match v with
  | A => VariantA.script fs
  | B => VariantB.script fs
  end.

Definition order (v : variant) : list step :=
  match v with A => order_A | B => order_B end.

(** The files a script opens, in the order it opens them. *)
Definition required_files (v : variant) : list pystr :=
  [lit "README.md"; lit "requirements.txt"; lit "requirements-dev.txt"]
    ++ match v with A => [VariantA.version_path] | B => [] end.

Definition is_readable (fs : gmap pystr file) (path : pystr) : bool :=
  match fs !! path with
  | Some (Text _) => true
  | _ => false
  end.

(** The exception that opening or reading [path] raises when it is not
    readable. *)
Definition access_error (fs : gmap pystr file) (path : pystr) : exn :=
  match fs !! path with
  | None => FileNotFoundError path
  | Some _ => PermissionError path
  end.

(** The step at which an exception is raised. *)
Definition failing_step (e : exn) : step :=
  match e with
  | FileNotFoundError path | PermissionError path => OpenFile path
  | AssertionError _ => Search
  end.

(** ** The vocabulary of the specification *)

(** The text whose lines are [ls]: the lines joined by \n. *)
Fixpoint join_lines (ls : list pystr) : pystr :=
  match ls with
  | [] => []
  | [l] => l
  | l :: ls' => l ++ LF :: join_lines ls'
  end.

(** The text whose lines are [ls], each ended by \n. *)
Definition unlines (ls : list pystr) : pystr :=
  concat ((λ l, l ++ [LF]) <$> ls).

(** A line holds no \n; a requirement line holds no line boundary of any
    kind. *)
Definition is_line (l : pystr) : Prop := LF ∉ l.
Definition no_linebreak (l : pystr) : Prop :=
  Forall (λ c, is_linebreak c = false) l.

(** [after_prefix p s]: what follows [p] in [s], when [s] begins with
    [p]. *)
Fixpoint after_prefix (p s : pystr) : option pystr :=
  match p, s with
  | [], _ => Some s
  | a :: p', b :: s' => if bool_decide (a = b) then after_prefix p' s' else None
  | _ :: _, [] => None
  end.

(** The text up to the first double quote, when there is one. *)
Fixpoint until_quote (s : pystr) : option pystr :=
  match s with
  | [] => None
  | c :: s' =>
      if bool_decide (c = QUOTE) then Some []
      else (c ::.) <$> until_quote s'
  end.

(** The value of a line of the form [__version__ = ], double quote, value,
    double quote: the quoted text. *)
Definition line_value (l : pystr) : option pystr :=
  after_prefix version_prefix l ≫= until_quote.

(** The value of the first line that is of that form. *)
Definition first_declared (ls : list pystr) : option pystr :=
  head (omap line_value ls).

(** A position is at the start of a line when nothing or a \n precedes
    it. *)
Definition line_start (pre : pystr) : Prop :=
  at_beginning_line (last pre) = true.

(** The text holds, at the start of a line, the prefix followed somewhere
    later by a double quote; the quoted text may run over line ends. *)
Definition declaration_found (t : pystr) : Prop :=
  ∃ pre v post,
    t = pre ++ version_prefix ++ v ++ QUOTE :: post ∧ line_start pre.

(** A version of the form digits, dot, digits, dot, digits. *)
Definition DOT : char := 46.

Definition is_digit (c : char) : bool := (48 <=? c) && (c <=? 57).

Definition dotted (d1 d2 d3 : pystr) : pystr := d1 ++ DOT :: d2 ++ DOT :: d3.

(** What variant A extracts from the text of the version file. *)
Definition extract_version (t : pystr) : option pystr :=
  group1 <$> re_search version_pattern t.

(** The group state after the characters of [l] have been taken. *)
Definition consume_all (l : pystr) (g : group_state) : group_state :=
  foldl (λ g c, consume c g) g l.


(** ** Concrete directories *)

(** The directory of the scenario of the specification, with [t] as the
    text of the version file. *)
Definition fs_with_version (t : pystr) : gmap pystr file :=
  {[ lit "README.md" := Text (lit "# Title");
     lit "requirements.txt" :=
       Text (lit "numpy==1.0" ++ [LF] ++ lit "requests");
     lit "requirements-dev.txt" := Text (lit "pytest");
     VariantA.version_path := Text t ]}.

Definition scenario_fs : gmap pystr file :=
  fs_with_version (version_prefix ++ lit "1.2.3" ++ [QUOTE]).

(** The records the scenario leads to; [ver] is the version that variant A
    extracts. *)
Definition scenario_kwargs_A_version (ver : pystr) : setup_kwargs := {|
  name := lit "ml-project";
  version := ver;
  description := lit "Template repository for ML projects";
  author := lit "Benjamin Bolte";
  url := lit "https://github.com/codekansas/ml-project-template";
  long_description := lit "# Title";
  long_description_content_type := lit "text/markdown";
  python_requires := lit ">=3.10";
  setup_requires := Some [lit "cmake"; lit "mypy"; lit "pybind11"; lit "torch"];
  install_requires := [lit "numpy==1.0"; lit "requests"];
  tests_require := [lit "pytest"];
  extras_require := {[ lit "dev" := [lit "pytest"] ]}
|}.

Definition scenario_kwargs_A : setup_kwargs :=
  scenario_kwargs_A_version (lit "1.2.3").

Definition scenario_kwargs_B : setup_kwargs := {|
  name := lit "ml-project";
  version := lit "0.0.1";
  description := lit "Empty template repository for ML projects";
  author := lit "Benjamin Bolte";
  url := lit "https://github.com/codekansas/ml-starter";
  long_description := lit "# Title";
  long_description_content_type := lit "text/markdown";
  python_requires := lit ">=3.10";
  setup_requires := None;
  install_requires := [lit "numpy==1.0"; lit "requests"];
  tests_require := [lit "pytest"];
  extras_require := {[ lit "dev" := [lit "pytest"] ]}
|}.

(** A version file whose first line opens the quote and never closes it,
    followed by a well-formed declaration. *)
Definition unclosed_then_declared : list pystr :=
  [version_prefix ++ lit "abc"; version_prefix ++ lit "1.2.3" ++ [QUOTE]].

(** A version file whose quoted value ends on the next line. *)
Definition value_over_two_lines : list pystr :=
  [version_prefix ++ lit "1.0"; [QUOTE]].

(** A second directory, differing from the scenario in all three files. *)
Definition other_fs : gmap pystr file :=
  {[ lit "README.md" := Text (lit "Another project");
     lit "requirements.txt" := Text (lit "torch" ++ [LF]);
     lit "requirements-dev.txt" := Text [] ]}.

Definition other_kwargs_B : setup_kwargs := {|
  name := lit "ml-project";
  version := lit "0.0.1";
  description := lit "Empty template repository for ML projects";
  author := lit "Benjamin Bolte";
  url := lit "https://github.com/codekansas/ml-starter";
  long_description := lit "Another project";
  long_description_content_type := lit "text/markdown";
  python_requires := lit ">=3.10";
  setup_requires := None;
  install_requires := [lit "torch"];
  tests_require := [];
  extras_require := {[ lit "dev" := [] ]}
|}.

(** A directory whose runtime requirements repeat a line, hold a blank
    line and a line that is no requirement specifier. *)
Definition repeated_fs : gmap pystr file :=
  {[ lit "README.md" := Text (lit "# Title");
     lit "requirements.txt" :=
       Text (unlines [lit "numpy"; []; lit "numpy"; lit "not a requirement!"]);
     lit "requirements-dev.txt" := Text (unlines [lit "pytest"]);
     VariantA.version_path := Text (version_prefix ++ lit "1.2.3" ++ [QUOTE]) ]}.

(** What [splitlines_from] goes on with after the line boundary [c]: the
    text after it, without the \n of a \r\n pair. *)
Definition skip_lf (c : N) (rest : pystr) : pystr :=
  match rest with
  | c' :: rest' =>
      if bool_decide (c = CR) && bool_decide (c' = LF) then rest' else rest
  | [] => rest
  end.

(** The characters of a text that are no line boundaries. *)
Definition without_linebreaks (s : pystr) : pystr :=
  filter (λ c, is_linebreak c = false) s.

(** ** Text mode *)

(** [open(path, "r")] leaves [newline] at its default: on reading, the
    decoder replaces every \r\n by \n and then every remaining \r by \n
    (the two [replace] calls of the incremental newline decoder). *)
Fixpoint replace_crlf (s : pystr) : pystr :=
  match s with
  | [] => []
  | c :: rest =>
      match rest with
      | c' :: rest' =>
          if bool_decide (c = CR) && bool_decide (c' = LF)
          then LF :: replace_crlf rest'
          else c :: replace_crlf rest
      | [] => [c]
      end
  end.

Definition replace_cr (s : pystr) : pystr :=
  (λ c, if bool_decide (c = CR) then LF else c) <$> s.

Definition universal_newlines (s : pystr) : pystr :=
  replace_cr (replace_crlf s).

(** The file whose decoded content on disk is [raw]: what [f.read()]
    returns for it is [raw] after the translation of text mode. *)
Definition text_file (raw : pystr) : file := Text (universal_newlines raw).

(** The description of the scenario written with a Windows line end, and
    the directory of the scenario with that description. *)
Definition crlf_description : pystr := lit "# Title" ++ [CR; LF] ++ lit "text".

Definition crlf_fs : gmap pystr file :=
  <[ lit "README.md" := text_file crlf_description ]> scenario_fs.

(** ** Tactics for running the scripts *)

Arguments lit : simpl never.

(** Unfold a script down to the lookups in the file system. *)
Ltac unfold_script :=
  cbv beta iota delta
    [run invokes halts_with steps script_of VariantA.script VariantB.script
     open_read re_search_step setup log raise mret mbind M_ret M_bind].

(** Decide each lookup the script waits on, from a hypothesis when there
    is one, by cases otherwise. *)
Ltac step_lookups :=
  repeat (cbv beta iota;
    match goal with
    | H : ?fs !! ?p = _ |- context [?fs !! ?p] => rewrite H
    | H : re_search ?c ?t = _ |- context [re_search ?c ?t] => rewrite H
    | |- context [match ?fs !! ?p with _ => _ end] =>
        let t := fresh "t" in
        let E := fresh "E" in
        destruct (fs !! p) as [[t|]|] eqn:E
    | H : context [match ?fs !! ?p with _ => _ end] |- _ =>
        let t := fresh "t" in
        let E := fresh "E" in
        destruct (fs !! p) as [[t|]|] eqn:E
    | H : context [match re_search ?c ?t with _ => _ end] |- _ =>
        let m := fresh "m" in
        let E := fresh "E" in
        destruct (re_search c t) as [m|] eqn:E
    | |- context [match re_search ?c ?t with _ => _ end] =>
        let m := fresh "m" in
        let E := fresh "E" in
        destruct (re_search c t) as [m|] eqn:E
    end).

(** The run stops on the file [p]. *)
Ltac blame p :=
  intros _; exists p; unfold is_readable, access_error;
  repeat match goal with
         | E : ?fs !! ?q = _ |- context [?fs !! ?q] => rewrite E
         end;
  split_and!; [set_solver | done..].

(** * Properties *)

(** ** The matcher on the version pattern *)

Section Matcher.

Implicit Types (s l p v pre post : pystr) (prev : option char).

Lemma after_prefix_Some p s s' : after_prefix p s = Some s' ↔ s = p ++ s'.
Proof.
  revert s. induction p as [|a p IH]; intros [|b s]; simpl.
  - split; congruence.
  - split; congruence.
  - split; [done | discriminate].
  - case_bool_decide as Hab.
    + subst b. rewrite IH. split; congruence.
    + split; [done | congruence].
Qed.

Lemma after_prefix_app p s : after_prefix p (p ++ s) = Some s.
Proof. by apply after_prefix_Some. Qed.

Lemma after_prefix_None p s : after_prefix p s = None ↔ ¬ p `prefix_of` s.
Proof.
  split.
  - intros Hn [k ->]. by rewrite after_prefix_app in Hn.
  - intros Hn. destruct (after_prefix p s) as [s'|] eqn:E; [|done].
    apply after_prefix_Some in E. destruct Hn. by exists s'.
Qed.

(** A prefix that holds no [c] cannot reach over a [c] of the text. *)
Lemma after_prefix_None_app p l c rest :
  c ∉ p → after_prefix p l = None → after_prefix p (l ++ c :: rest) = None.
Proof.
  revert l. induction p as [|a p IH]; intros l Hc Hn; [done|].
  apply not_elem_of_cons in Hc as [Hca Hcp].
  destruct l as [|b l]; simpl in *.
  - by rewrite bool_decide_false by congruence.
  - case_bool_decide; [by apply IH | done].
Qed.

Lemma until_quote_app v post :
  QUOTE ∉ v → until_quote (v ++ QUOTE :: post) = Some v.
Proof.
  induction v as [|c v IH]; intros Hv; simpl.
  - by rewrite ?bool_decide_true.
  - apply not_elem_of_cons in Hv as [Hc Hv].
    rewrite bool_decide_false by done. by rewrite IH.
Qed.

Lemma until_quote_inv s v :
  until_quote s = Some v → (QUOTE ∉ v) ∧ (∃ post, s = v ++ QUOTE :: post).
Proof.
  revert v. induction s as [|c s IH]; intros v; simpl; [done|].
  case_bool_decide as Hc.
  - subst c. intros [= <-]. split; [apply not_elem_of_nil | by exists s].
  - destruct (until_quote s) as [w|]; simpl; [|done].
    intros [= <-]. destruct (IH w eq_refl) as [Hw [post ->]].
    split; [by apply not_elem_of_cons | by exists post].
Qed.

Lemma until_quote_Some s v :
  until_quote s = Some v ↔ (QUOTE ∉ v) ∧ (∃ post, s = v ++ QUOTE :: post).
Proof.
  split; [apply until_quote_inv|]. intros [Hv [post ->]].
  by apply until_quote_app.
Qed.

Lemma until_quote_None s : until_quote s = None ↔ QUOTE ∉ s.
Proof.
  split.
  - intros Hn Hin. apply list_elem_of_split_l in Hin as (v & post & -> & Hv).
    by rewrite until_quote_app in Hn.
  - intros Hs. destruct (until_quote s) as [v|] eqn:E; [|done].
    apply until_quote_inv in E as [_ [post ->]]. destruct Hs.
    apply elem_of_app. right. left.
Qed.

(** The value of a line, in the words of the form. *)
Lemma line_value_Some l v :
  line_value l = Some v ↔
  (QUOTE ∉ v) ∧ (∃ rest, l = version_prefix ++ v ++ QUOTE :: rest).
Proof.
  unfold line_value. split.
  - destruct (after_prefix version_prefix l) as [s'|] eqn:E; [|done].
    simpl. intros [Hv [rest ->]]%until_quote_Some.
    apply after_prefix_Some in E. split; [done|]. by exists rest.
  - intros [Hv [rest ->]]. rewrite after_prefix_app. simpl.
    apply until_quote_Some; eauto.
Qed.

(** What follows a line of the form does not change its value. *)
Lemma line_value_app l v more :
  line_value l = Some v → line_value (l ++ more) = Some v.
Proof.
  intros [Hv [rest ->]]%line_value_Some. apply line_value_Some.
  split; [done|]. exists (rest ++ more). by rewrite <- !app_assoc.
Qed.

Lemma line_value_is_Some s :
  is_Some (line_value s) ↔
  ∃ v post, s = version_prefix ++ v ++ QUOTE :: post.
Proof.
  split.
  - intros [v [_ [post ->]]%line_value_Some]. eauto.
  - intros (v & post & ->). unfold line_value.
    rewrite after_prefix_app. simpl.
    destruct (until_quote (v ++ QUOTE :: post)) eqn:E; [done|].
    apply until_quote_None in E. destruct E.
    apply elem_of_app. right. left.
Qed.

Lemma consume_all_Unset l : consume_all l Unset = Unset.
Proof. by induction l. Qed.

(** A run of literals matches exactly the text that begins with them. *)
Lemma sre_match_literals l code prev s g :
  sre_match (map LITERAL l ++ code) prev s g =
  match after_prefix l s with
  | Some s' =>
      sre_match code (from_option Some prev (last l)) s' (consume_all l g)
  | None => None
  end.
Proof.
  revert prev s g. induction l as [|c l IH]; intros prev s g; [done|].
  destruct s as [|c' s]; simpl; [done|].
  rewrite (bool_decide_ext (c' = c) (c = c')) by (split; congruence).
  case_bool_decide; [|done]. subst c'. rewrite IH.
  destruct (after_prefix l s); [|done]. f_equal.
  rewrite last_cons. by destruct (last l).
Qed.

(** The end of the pattern: the group is closed and the closing quote is
    required. *)
Lemma closing_quote prev s acc :
  sre_match [MARK_CLOSE; LITERAL QUOTE] prev s (Opened acc) =
  match s with
  | c :: _ => if bool_decide (c = QUOTE) then Some (Closed (rev acc)) else None
  | [] => None
  end.
Proof. by destruct s. Qed.

(** The greedy run of characters other than the double quote, then the
    closing quote: the group takes the text up to the first quote. *)
Lemma repeat_until_quote acc prev s :
  repeat_not_literal (sre_match [MARK_CLOSE; LITERAL QUOTE]) QUOTE prev s
    (Opened acc)
  = (λ v, Closed (rev acc ++ v)) <$> until_quote s.
Proof.
  revert acc prev. induction s as [|c s IH]; intros acc prev;
    cbn [repeat_not_literal until_quote consume]; rewrite closing_quote;
    [done|].
  destruct (decide (c = QUOTE)) as [Hc|Hc].
  - rewrite bool_decide_false by tauto. rewrite bool_decide_true by done.
    simpl. by rewrite app_nil_r.
  - rewrite bool_decide_true by done. rewrite IH.
    rewrite bool_decide_false by done.
    destruct (until_quote s) as [v|]; simpl; [|done].
    by rewrite <- app_assoc.
Qed.

(** One attempt of the version pattern. *)
Lemma attempt_eq prev s :
  sre_match version_pattern prev s Unset =
  if at_beginning_line prev then Closed <$> line_value s else None.
Proof.
  unfold version_pattern. simpl sre_match at 1.
  destruct (at_beginning_line prev); [|done].
  change (sre_match (map LITERAL version_prefix ++
      [MARK_OPEN; REPEAT_NOT_LITERAL QUOTE; MARK_CLOSE; LITERAL QUOTE])
      prev s Unset = Closed <$> line_value s).
  rewrite sre_match_literals. unfold line_value.
  destruct (after_prefix version_prefix s) as [s'|]; [|done].
  simpl sre_match. rewrite repeat_until_quote. simpl.
  by destruct (until_quote s').
Qed.

End Matcher.

(** ** The search over the text *)

Section Search.

Implicit Types (s l v pre post : pystr) (prev : option char).

Lemma search_from_unfold prev s :
  search_from version_pattern prev s =
  match (if at_beginning_line prev then Closed <$> line_value s else None) with
  | Some g => Some g
  | None =>
      match s with
      | [] => None
      | c :: s' => search_from version_pattern (Some c) s'
      end
  end.
Proof. destruct s; cbn [search_from]; by rewrite attempt_eq. Qed.

Lemma search_hit prev s v :
  at_beginning_line prev = true → line_value s = Some v →
  search_from version_pattern prev s = Some (Closed v).
Proof. intros Hb Hv. rewrite search_from_unfold, Hb, Hv. done. Qed.

(** Positions inside a line are not line starts: the search moves on to
    the next line. *)
Lemma search_skip_inside l rest prev :
  LF ∉ l → at_beginning_line prev = false →
  search_from version_pattern prev (l ++ LF :: rest)
  = search_from version_pattern (Some LF) rest.
Proof.
  revert prev. induction l as [|c l IH]; intros prev Hl Hb;
    rewrite search_from_unfold, Hb; simpl; [done|].
  apply not_elem_of_cons in Hl as [Hc Hl]. apply IH; [done|].
  simpl. by apply bool_decide_eq_false.
Qed.

Lemma search_skip_line l rest prev :
  LF ∉ l → line_value (l ++ LF :: rest) = None →
  search_from version_pattern prev (l ++ LF :: rest)
  = search_from version_pattern (Some LF) rest.
Proof.
  intros Hl Hv. rewrite search_from_unfold, Hv.
  replace (if at_beginning_line prev then Closed <$> None else None)
    with (@None group_state) by (by destruct (at_beginning_line prev)).
  destruct l as [|c l]; simpl; [done|].
  apply not_elem_of_cons in Hl as [Hc Hl]. apply search_skip_inside; [done|].
  simpl. by apply bool_decide_eq_false.
Qed.

Lemma LF_not_in_prefix : LF ∉ version_prefix.
Proof. apply (bool_decide_unpack (LF ∉ version_prefix)). by vm_compute. Qed.

(** A line that does not begin with the prefix has no value, whatever
    follows it. *)
Lemma line_value_other_line l rest :
  ¬ version_prefix `prefix_of` l → line_value (l ++ LF :: rest) = None.
Proof.
  intros Hp%after_prefix_None. unfold line_value.
  by rewrite (after_prefix_None_app _ _ _ _ LF_not_in_prefix Hp).
Qed.

(** Whole lines that do not begin with the prefix are passed over. *)
Lemma search_unlines prev before s :
  at_beginning_line prev = true →
  Forall is_line before →
  Forall (λ l, ¬ version_prefix `prefix_of` l) before →
  ∃ prev', at_beginning_line prev' = true ∧
    search_from version_pattern prev (unlines before ++ s)
    = search_from version_pattern prev' s.
Proof.
  revert prev. induction before as [|l before IH]; intros prev Hb Hls Hps.
  - by exists prev.
  - apply Forall_cons in Hls as [Hl Hls]. apply Forall_cons in Hps as [Hp Hps].
    destruct (IH (Some LF) eq_refl Hls Hps) as (prev' & Hb' & Heq).
    exists prev'. split; [done|]. rewrite <- Heq.
    unfold unlines. simpl. rewrite <- !app_assoc. simpl.
    apply search_skip_line; [done | by apply line_value_other_line].
Qed.

Lemma join_lines_cons l ls :
  join_lines (l :: ls) = l ++ match ls with [] => [] | _ => LF :: join_lines ls end.
Proof. destruct ls; simpl; [by rewrite app_nil_r | done]. Qed.

Lemma join_lines_app before l after :
  join_lines (before ++ l :: after) = unlines before ++ join_lines (l :: after).
Proof.
  induction before as [|b before IH]; [done|].
  change ((b :: before) ++ l :: after) with (b :: (before ++ l :: after)).
  rewrite join_lines_cons, IH. unfold unlines. simpl.
  rewrite <- !app_assoc. simpl. by destruct before.
Qed.

(** The search finds the first line that begins with the prefix, when the
    closing quote is on that line. *)
Lemma search_first_prefixed_line before l after v :
  Forall is_line before →
  Forall (λ l, ¬ version_prefix `prefix_of` l) before →
  line_value l = Some v →
  re_search version_pattern (join_lines (before ++ l :: after))
  = Some (Closed v).
Proof.
  intros Hls Hps Hv. unfold re_search. rewrite join_lines_app.
  destruct (search_unlines None before (join_lines (l :: after)) eq_refl Hls Hps)
    as (prev' & Hb' & ->).
  apply search_hit; [done|]. rewrite join_lines_cons.
  by apply line_value_app.
Qed.

(** Every match starts at a line start, on the prefix, and its group is
    the text up to the first double quote after the prefix. *)
Lemma search_from_inv prev s m :
  search_from version_pattern prev s = Some m →
  ∃ pre v post,
    s = pre ++ version_prefix ++ v ++ QUOTE :: post ∧ (QUOTE ∉ v) ∧
    m = Closed v ∧ at_beginning_line (from_option Some prev (last pre)) = true.
Proof.
  revert prev. induction s as [|c s IH]; intros prev;
    rewrite search_from_unfold.
  - destruct (at_beginning_line prev) eqn:Hb; [|done].
    destruct (line_value []) as [v|] eqn:Hv; [|done]. simpl. intros [= <-].
    apply line_value_Some in Hv as [Hq [post Hs]].
    exists [], v, post. done.
  - destruct (at_beginning_line prev) eqn:Hb;
      [destruct (line_value (c :: s)) as [v|] eqn:Hv|]; simpl.
    + intros [= <-]. apply line_value_Some in Hv as [Hq [post Hs]].
      exists [], v, post. done.
    + intros (pre & v & post & -> & Hq & -> & Hb')%IH.
      exists (c :: pre), v, post. split_and!; try done.
      rewrite last_cons. by destruct (last pre).
    + intros (pre & v & post & -> & Hq & -> & Hb')%IH.
      exists (c :: pre), v, post. split_and!; try done.
      rewrite last_cons. by destruct (last pre).
Qed.

(** A declaration at a line start makes the search succeed, there or
    earlier. *)
Lemma search_from_found prev pre s :
  at_beginning_line (from_option Some prev (last pre)) = true →
  is_Some (line_value s) →
  is_Some (search_from version_pattern prev (pre ++ s)).
Proof.
  revert prev. induction pre as [|c pre IH]; intros prev Hb [v Hv].
  - simpl in *. rewrite (search_hit _ _ _ Hb Hv). done.
  - rewrite search_from_unfold. simpl.
    destruct (if at_beginning_line prev
              then Closed <$> line_value (c :: pre ++ s) else None); [done|].
    apply IH; [|by exists v]. rewrite last_cons in Hb.
    by destruct (last pre).
Qed.

(** The search succeeds exactly on the texts that hold a declaration. *)
Lemma search_found_iff t :
  is_Some (re_search version_pattern t) ↔ declaration_found t.
Proof.
  split.
  - intros [m (pre & v & post & -> & _ & _ & Hb)%search_from_inv].
    exists pre, v, post. split; [done|]. unfold line_start.
    by destruct (last pre).
  - intros (pre & v & post & -> & Hb). apply search_from_found.
    + unfold line_start in Hb. by destruct (last pre).
    + apply line_value_is_Some. eauto.
Qed.

Lemma version_match_closed t m :
  re_search version_pattern t = Some m → ∃ v, m = Closed v.
Proof. intros (_ & v & _ & _ & _ & -> & _)%search_from_inv. eauto. Qed.

End Search.

(** ** Running the scripts *)

Section Scripts.

Implicit Types (fs : gmap pystr file) (v : variant) (kw : setup_kwargs).

(** What a run that reaches [setup] passes to it, field by field. *)
Lemma invokes_inv v fs kw :
  invokes (script_of v fs) kw →
  ∃ d r rd,
    fs !! lit "README.md" = Some (Text d) ∧
    fs !! lit "requirements.txt" = Some (Text r) ∧
    fs !! lit "requirements-dev.txt" = Some (Text rd) ∧
    long_description kw = d ∧
    long_description_content_type kw = lit "text/markdown" ∧
    install_requires kw = splitlines r ∧
    tests_require kw = splitlines rd ∧
    extras_require kw = {[ lit "dev" := splitlines rd ]} ∧
    match v with
    | A => ∃ t m, fs !! VariantA.version_path = Some (Text t) ∧
             re_search version_pattern t = Some m ∧ version kw = group1 m
    | B => version kw = lit "0.0.1"
    end.
Proof.
  destruct v; unfold invokes; unfold_script; intros [Hr Hc];
    step_lookups; simpl in Hr, Hc; try discriminate;
    injection Hc as <-; eexists _, _, _; simpl; split_and!; eauto.
Qed.

(** When every file is readable and the pattern is found, variant A calls
    [setup] with the group of the match. *)
Lemma invokes_A fs d r rd t m :
  fs !! lit "README.md" = Some (Text d) →
  fs !! lit "requirements.txt" = Some (Text r) →
  fs !! lit "requirements-dev.txt" = Some (Text rd) →
  fs !! VariantA.version_path = Some (Text t) →
  re_search version_pattern t = Some m →
  ∃ kw, invokes (VariantA.script fs) kw ∧ version kw = group1 m ∧
        steps (VariantA.script fs) = order_A.
Proof.
  intros H1 H2 H3 H4 H5. unfold_script. step_lookups.
  eexists. split_and!; reflexivity.
Qed.

(** When every file is readable and the pattern is not found, variant A
    stops at the assertion, right after the search. *)
Lemma assertion_A fs d r rd t :
  fs !! lit "README.md" = Some (Text d) →
  fs !! lit "requirements.txt" = Some (Text r) →
  fs !! lit "requirements-dev.txt" = Some (Text rd) →
  fs !! VariantA.version_path = Some (Text t) →
  re_search version_pattern t = None →
  run (VariantA.script fs) =
    ([EvOpen (lit "README.md"); EvOpen (lit "requirements.txt");
      EvOpen (lit "requirements-dev.txt"); EvOpen VariantA.version_path;
      EvSearch],
     inl (AssertionError VariantA.assert_msg)).
Proof.
  intros H1 H2 H3 H4 H5. unfold_script. by step_lookups.
Qed.

(** When its three files are readable, variant B calls [setup]. *)
Lemma invokes_B fs d r rd :
  fs !! lit "README.md" = Some (Text d) →
  fs !! lit "requirements.txt" = Some (Text r) →
  fs !! lit "requirements-dev.txt" = Some (Text rd) →
  ∃ kw, invokes (VariantB.script fs) kw ∧
        steps (VariantB.script fs) = order_B.
Proof.
  intros H1 H2 H3. unfold_script. step_lookups.
  eexists. split_and!; reflexivity.
Qed.

(** Variant A never calls [setup] when the pattern is not found. *)
Lemma no_setup_without_match fs t :
  fs !! VariantA.version_path = Some (Text t) →
  re_search version_pattern t = None →
  setup_calls (run (VariantA.script fs)).1 = [].
Proof.
  intros H4 H5. unfold_script. by step_lookups.
Qed.

End Scripts.

(** ** [splitlines] on texts made of lines *)

Section Splitlines.

Implicit Types (l acc rest : pystr) (ls : list pystr).

(** Up to the first \n of a text without other line boundaries before
    it, [splitlines_from] yields one line. *)
Lemma splitlines_from_line acc l rest :
  no_linebreak l →
  splitlines_from acc (l ++ LF :: rest)
  = (rev acc ++ l) :: splitlines_from [] rest.
Proof.
  revert acc. induction l as [|c l IH]; intros acc Hl.
  - simpl. rewrite app_nil_r. by destruct rest.
  - apply Forall_cons in Hl as [Hc Hl]. simpl. rewrite Hc, (IH _ Hl).
    simpl. by rewrite <- app_assoc.
Qed.

(** A last line without its \n is a line unless it is empty. *)
Lemma splitlines_from_end acc l :
  no_linebreak l →
  splitlines_from acc l
  = match rev acc ++ l with [] => [] | _ => [rev acc ++ l] end.
Proof.
  revert acc. induction l as [|c l IH]; intros acc Hl.
  - simpl. rewrite app_nil_r. destruct acc as [|a acc]; [done|].
    simpl. by destruct (rev acc).
  - apply Forall_cons in Hl as [Hc Hl]. simpl. rewrite Hc, (IH _ Hl).
    simpl. by rewrite <- app_assoc.
Qed.

Lemma unlines_cons l ls : unlines (l :: ls) = l ++ LF :: unlines ls.
Proof. unfold unlines. simpl. by rewrite <- app_assoc. Qed.

Lemma splitlines_unlines ls :
  Forall no_linebreak ls → splitlines (unlines ls) = ls.
Proof.
  induction 1 as [|l ls Hl _ IH]; [done|].
  rewrite unlines_cons. unfold splitlines.
  rewrite splitlines_from_line by done. simpl rev. f_equal. apply IH.
Qed.

Lemma splitlines_join_lines ls :
  Forall no_linebreak ls → last ls ≠ Some [] →
  splitlines (join_lines ls) = ls.
Proof.
  induction 1 as [|l ls Hl Hls IH]; intros Hlast; [done|].
  rewrite join_lines_cons. destruct ls as [|l' ls].
  - rewrite app_nil_r. unfold splitlines.
    rewrite splitlines_from_end by done. simpl. by destruct l.
  - unfold splitlines in *. rewrite splitlines_from_line by done.
    simpl rev. f_equal. by apply IH.
Qed.

End Splitlines.

(** ** The scenario of the specification *)

Lemma scenario_invokes_A : invokes (script_of A scenario_fs) scenario_kwargs_A.
Proof. split; vm_compute; reflexivity. Qed.

Lemma scenario_invokes_B : invokes (script_of B scenario_fs) scenario_kwargs_B.
Proof. split; vm_compute; reflexivity. Qed.

(** * The claims *)

(** Text without \r is read as it is, and text that has been read holds
    no \r. *)
Lemma replace_crlf_id (s : pystr) : CR ∉ s → replace_crlf s = s.
Proof.
  induction s as [|c rest IH]; intros Hs; [done|].
  apply not_elem_of_cons in Hs as [Hc Hs]. cbn [replace_crlf].
  destruct rest as [|c' rest']; [done|].
  rewrite (bool_decide_false (c = CR)) by congruence. simpl andb. cbv iota.
  by rewrite (IH Hs).
Qed.

Lemma replace_cr_id (s : pystr) : CR ∉ s → replace_cr s = s.
Proof.
  induction s as [|c rest IH]; intros Hs; [done|].
  apply not_elem_of_cons in Hs as [Hc Hs]. unfold replace_cr in *.
  rewrite fmap_cons, (IH Hs). by rewrite bool_decide_false by congruence.
Qed.

Lemma universal_newlines_id (s : pystr) : CR ∉ s → universal_newlines s = s.
Proof.
  intros Hs. unfold universal_newlines.
  by rewrite (replace_crlf_id s Hs), (replace_cr_id s Hs).
Qed.

Lemma universal_newlines_no_CR (s : pystr) : CR ∉ universal_newlines s.
Proof.
  unfold universal_newlines, replace_cr.
  intros (c & Hc & _)%list_elem_of_fmap. by case_bool_decide.
Qed.

(** C6, as stated, fails.  The description file below holds a \r\n; the
    run of variant A calls [setup], and the long description it passes
    holds \n in its place: it is not the content of the file. *)
Lemma crlf_description_not_passed_exactly :
  crlf_fs !! lit "README.md" = Some (text_file crlf_description) ∧
  ∃ kw,
    invokes (script_of A crlf_fs) kw ∧
    long_description kw = lit "# Title" ++ [LF] ++ lit "text" ∧
    long_description kw ≠ crlf_description.
Proof.
  split; [vm_compute; reflexivity|].
  destruct (invokes_A crlf_fs
              (lit "# Title" ++ [LF] ++ lit "text")
              (lit "numpy==1.0" ++ [LF] ++ lit "requests") (lit "pytest")
              (version_prefix ++ lit "1.2.3" ++ [QUOTE])
              (Closed (lit "1.2.3")))
    as (kw & Hi & _); try (vm_compute; reflexivity).
  exists kw. split; [exact Hi|].
  apply (invokes_inv A) in Hi as (d & _ & _ & Hd & _ & _ & -> & _).
  vm_compute in Hd. injection Hd as <-. split; [reflexivity|].
  vm_compute. discriminate.
Qed.

(** C6, amended.  When the files of a script are readable (and, for
    variant A, the version file holds a declaration), [setup] is called,
    and the long description of the record is the content of the
    description file as text mode reads it: with every \r\n and every
    other \r replaced by \n, nothing else changed.  It is the content
    exactly when the content holds no \r, and it never holds a \r.  It
    comes with the fixed format tag text/markdown.  Every record the run
    passes to [setup] has these values. *)
Theorem long_description_as_read
    (v : variant) (fs : gmap pystr file) (raw r rd : pystr) :
  fs !! lit "README.md" = Some (text_file raw) →
  fs !! lit "requirements.txt" = Some (Text r) →
  fs !! lit "requirements-dev.txt" = Some (Text rd) →
  (v = A → ∃ t, fs !! VariantA.version_path = Some (Text t) ∧
                declaration_found t) →
  (∃ kw, invokes (script_of v fs) kw) ∧
  ∀ kw, invokes (script_of v fs) kw →
    long_description kw = universal_newlines raw ∧
    (CR ∉ raw → long_description kw = raw) ∧
    (CR ∉ long_description kw) ∧
    long_description_content_type kw = lit "text/markdown".
Proof.
  intros Hd Hr Hrd Hv. split.
  - destruct v.
    + destruct (Hv eq_refl) as (t & Ht & [m Hm]%search_found_iff).
      destruct (invokes_A fs _ r rd t m Hd Hr Hrd Ht Hm) as (kw & ? & _).
      by exists kw.
    + destruct (invokes_B fs _ r rd Hd Hr Hrd) as (kw & ? & _). by exists kw.
  - intros kw (d & _ & _ & Hd' & _ & _ & Hl & Ht & _)%invokes_inv.
    assert (d = universal_newlines raw) as ->.
    { unfold text_file in Hd. congruence. }
    rewrite Hl. split_and!; [done | | | done].
    + intros Hcr. by apply universal_newlines_id.
    + apply universal_newlines_no_CR.
Qed.

Lemma long_description_as_read_witness :
  (∃ kw, invokes (script_of A crlf_fs) kw) ∧
  ∀ kw, invokes (script_of A crlf_fs) kw →
    long_description kw = universal_newlines crlf_description ∧
    (CR ∉ crlf_description → long_description kw = crlf_description) ∧
    (CR ∉ long_description kw) ∧
    long_description_content_type kw = lit "text/markdown".
Proof.
  apply (long_description_as_read A crlf_fs crlf_description
           (lit "numpy==1.0" ++ [LF] ++ lit "requests") (lit "pytest")).
  - vm_compute. reflexivity.
  - vm_compute. reflexivity.
  - vm_compute. reflexivity.
  - intros _. exists (version_prefix ++ lit "1.2.3" ++ [QUOTE]).
    split; [vm_compute; reflexivity|].
    exists [], (lit "1.2.3"), []. split; reflexivity.
Defined.

(** C7.  In every record passed to [setup], by either variant, the extras
    mapping has the single key dev, and the list under it is the list
    passed as [tests_require]; both are the lines of
    requirements-dev.txt. *)
Theorem extras_require_dev
    (v : variant) (fs : gmap pystr file) (kw : setup_kwargs) :
  invokes (script_of v fs) kw →
  dom (extras_require kw) = ({[ lit "dev" ]} : gset pystr) ∧
  extras_require kw !! lit "dev" = Some (tests_require kw) ∧
  ∃ rd, fs !! lit "requirements-dev.txt" = Some (Text rd) ∧
        tests_require kw = splitlines rd.
Proof.
  intros (d & r & rd & _ & _ & Hrd & _ & _ & _ & Ht & He & _)%invokes_inv.
  rewrite He, Ht. split_and!.
  - apply dom_singleton_L.
  - apply lookup_singleton_eq.
  - by exists rd.
Qed.

Lemma extras_require_dev_witness :
  dom (extras_require scenario_kwargs_B) = ({[ lit "dev" ]} : gset pystr) ∧
  extras_require scenario_kwargs_B !! lit "dev"
    = Some (tests_require scenario_kwargs_B) ∧
  ∃ rd, scenario_fs !! lit "requirements-dev.txt" = Some (Text rd) ∧
        tests_require scenario_kwargs_B = splitlines rd.
Proof.
  apply (extras_require_dev B scenario_fs).
  split; vm_compute; reflexivity.
Defined.

(** C8.  In variant B the version passed to [setup] is the literal 0.0.1:
    two runs on any two directories pass the same version. *)
Theorem version_B_constant
    (fs1 fs2 : gmap pystr file) (kw1 kw2 : setup_kwargs) :
  invokes (VariantB.script fs1) kw1 →
  invokes (VariantB.script fs2) kw2 →
  version kw1 = version kw2 ∧ version kw1 = lit "0.0.1".
Proof.
  intros H1 H2.
  apply (invokes_inv B) in H1 as (_ & _ & _ & _ & _ & _ & _ & _ & _ & _ & _ & ->).
  apply (invokes_inv B) in H2 as (_ & _ & _ & _ & _ & _ & _ & _ & _ & _ & _ & ->).
  done.
Qed.

Lemma version_B_constant_witness :
  version scenario_kwargs_B = version other_kwargs_B ∧
  version scenario_kwargs_B = lit "0.0.1".
Proof.
  apply (version_B_constant scenario_fs other_fs).
  - split; vm_compute; reflexivity.
  - split; vm_compute; reflexivity.
Defined.

(** C10.  The requirement lists are the result of [splitlines] on the two
    files.  A text of lines each ended by \n yields exactly those lines:
    the final \n adds no empty string, and empty lines in between are
    kept.  The same lines without the final \n yield the same list.  The
    empty file yields the empty list. *)
Theorem requirement_lists_by_splitlines
    (v : variant) (fs : gmap pystr file) (kw : setup_kwargs) :
  invokes (script_of v fs) kw →
  (∃ r rd,
     fs !! lit "requirements.txt" = Some (Text r) ∧
     fs !! lit "requirements-dev.txt" = Some (Text rd) ∧
     install_requires kw = splitlines r ∧
     tests_require kw = splitlines rd) ∧
  splitlines (lit "a" ++ [LF] ++ lit "b" ++ [LF]) = [lit "a"; lit "b"] ∧
  splitlines [] = [] ∧
  splitlines (lit "a" ++ [LF; LF] ++ lit "b" ++ [LF]) = [lit "a"; []; lit "b"] ∧
  (∀ ls, Forall no_linebreak ls → splitlines (unlines ls) = ls) ∧
  (∀ ls, Forall no_linebreak ls → last ls ≠ Some [] →
         splitlines (join_lines ls) = ls).
Proof.
  intros (d & r & rd & _ & Hr & Hrd & _ & _ & Hi & Ht & _)%invokes_inv.
  split_and!; try reflexivity.
  - by exists r, rd.
  - apply splitlines_unlines.
  - apply splitlines_join_lines.
Qed.

Lemma requirement_lists_by_splitlines_witness :
  (∃ r rd,
     scenario_fs !! lit "requirements.txt" = Some (Text r) ∧
     scenario_fs !! lit "requirements-dev.txt" = Some (Text rd) ∧
     install_requires scenario_kwargs_A = splitlines r ∧
     tests_require scenario_kwargs_A = splitlines rd) ∧
  splitlines (lit "a" ++ [LF] ++ lit "b" ++ [LF]) = [lit "a"; lit "b"] ∧
  splitlines [] = [] ∧
  splitlines (lit "a" ++ [LF; LF] ++ lit "b" ++ [LF]) = [lit "a"; []; lit "b"] ∧
  (∀ ls, Forall no_linebreak ls → splitlines (unlines ls) = ls) ∧
  (∀ ls, Forall no_linebreak ls → last ls ≠ Some [] →
         splitlines (join_lines ls) = ls).
Proof.
  apply (requirement_lists_by_splitlines A scenario_fs).
  split; vm_compute; reflexivity.
Defined.

(** C5.  When the other three files are readable and the version file
    begins with [__version__ = ], a double quote, a text [val] without
    double quote, and a double quote, variant A does not stop: it calls
    [setup] with [val] as version.  The group accepts any such text, digits
    or not, and in particular the empty one: for the content
    [__version__ = ] followed by two double quotes ([val] and [post] empty)
    the version passed on is the empty string. *)
Theorem empty_version_accepted
    (fs : gmap pystr file) (d r rd val post : pystr) :
  fs !! lit "README.md" = Some (Text d) →
  fs !! lit "requirements.txt" = Some (Text r) →
  fs !! lit "requirements-dev.txt" = Some (Text rd) →
  fs !! VariantA.version_path
    = Some (Text (version_prefix ++ val ++ QUOTE :: post)) →
  QUOTE ∉ val →
  ∃ kw, invokes (VariantA.script fs) kw ∧ version kw = val ∧
        extract_version (version_prefix ++ val ++ QUOTE :: post) = Some val.
Proof.
  intros Hd Hr Hrd Ht Hq.
  assert (re_search version_pattern (version_prefix ++ val ++ QUOTE :: post)
          = Some (Closed val)) as Hs.
  { apply (search_hit None); [done|]. apply line_value_Some. eauto. }
  destruct (invokes_A fs d r rd _ _ Hd Hr Hrd Ht Hs) as (kw & Hi & Hv & _).
  exists kw. split_and!; [done.. |]. unfold extract_version. by rewrite Hs.
Qed.

Lemma empty_version_accepted_witness :
  ∃ kw, invokes (VariantA.script (fs_with_version (version_prefix ++ [QUOTE]))) kw
        ∧ version kw = []
        ∧ extract_version (version_prefix ++ [QUOTE]) = Some [].
Proof.
  apply (empty_version_accepted (fs_with_version (version_prefix ++ [QUOTE]))
           (lit "# Title") (lit "numpy==1.0" ++ [LF] ++ lit "requests")
           (lit "pytest") [] []); try (vm_compute; reflexivity).
  apply not_elem_of_nil.
Defined.

(** C4.  When one of the files a script needs is absent or unreadable, the
    run stops with the file-access error raised on the first such file;
    [setup] is not called, so no record is built.  In particular, when
    README.md is the unreadable file, the run stops at its first step. *)
Theorem unreadable_file_halts (v : variant) (fs : gmap pystr file) :
  Exists (λ p, is_readable fs p = false) (required_files v) →
  ∃ p,
    p ∈ required_files v ∧ is_readable fs p = false ∧
    halts_with (script_of v fs) (access_error fs p) ∧
    is_file_access_error (access_error fs p) = true ∧
    setup_calls (run (script_of v fs)).1 = [] ∧
    (is_readable fs (lit "README.md") = false →
     p = lit "README.md" ∧
     (run (script_of v fs)).1 = [EvOpen (lit "README.md")]).
Proof.
  intros Hex.
  destruct v; unfold required_files in *; simpl app in *;
    repeat (apply Exists_cons in Hex as [Hex|Hex]);
    try (by apply Exists_nil in Hex).
  all: revert Hex; unfold is_readable, access_error; unfold_script.
  all: destruct (fs !! lit "README.md") as [[d|]|] eqn:E1; cbv beta iota;
    try blame (lit "README.md"); try discriminate.
  all: destruct (fs !! lit "requirements.txt") as [[r|]|] eqn:E2;
    cbv beta iota; try blame (lit "requirements.txt"); try discriminate.
  all: destruct (fs !! lit "requirements-dev.txt") as [[rd|]|] eqn:E3;
    cbv beta iota; try blame (lit "requirements-dev.txt"); try discriminate.
  all: destruct (fs !! VariantA.version_path) as [[t|]|] eqn:E4;
    cbv beta iota; try blame VariantA.version_path; try discriminate.
Qed.

Lemma unreadable_file_halts_witness :
  ∃ p,
    p ∈ required_files A ∧ is_readable (delete (lit "README.md") scenario_fs) p = false ∧
    halts_with (script_of A (delete (lit "README.md") scenario_fs))
      (access_error (delete (lit "README.md") scenario_fs) p) ∧
    is_file_access_error (access_error (delete (lit "README.md") scenario_fs) p)
      = true ∧
    setup_calls (run (script_of A (delete (lit "README.md") scenario_fs))).1 = [] ∧
    (is_readable (delete (lit "README.md") scenario_fs) (lit "README.md") = false →
     p = lit "README.md" ∧
     (run (script_of A (delete (lit "README.md") scenario_fs))).1
       = [EvOpen (lit "README.md")]).
Proof.
  apply (unreadable_file_halts A (delete (lit "README.md") scenario_fs)).
  apply Exists_cons_hd. vm_compute. reflexivity.
Defined.

(** C9.  Each script performs its steps in the order of its statements:
    it opens README.md, requirements.txt and requirements-dev.txt, then
    (variant A) opens the version file and searches it, then calls
    [setup].  The steps of a run are an initial part of that sequence,
    the whole of it exactly when the run ends normally; a run that stops
    with an exception ends at the step that raised it, without any later
    step and without calling [setup]; [setup] is called at most once. *)
Theorem steps_in_script_order (v : variant) (fs : gmap pystr file) :
  steps (script_of v fs) `prefix_of` order v ∧
  ((run (script_of v fs)).2 = inr tt ↔ steps (script_of v fs) = order v) ∧
  (length (setup_calls (run (script_of v fs)).1) ≤ 1)%nat ∧
  (∀ e, halts_with (script_of v fs) e →
        last (steps (script_of v fs)) = Some (failing_step e) ∧
        (CallSetup ∉ steps (script_of v fs)) ∧
        setup_calls (run (script_of v fs)).1 = []).
Proof.
  destruct v; unfold order, order_A, order_B; unfold_script; step_lookups;
    simpl.
  all: split; [eexists; reflexivity|].
  all: split; [split; intros; (reflexivity || discriminate)|].
  all: split; [lia|].
  all: intros e He; first [discriminate He | injection He as <-].
  all: split; [reflexivity|]; split; [|reflexivity].
  all: intros Hin;
    repeat (apply elem_of_cons in Hin as [Hin|Hin]; [discriminate|]);
    by apply elem_of_nil in Hin.
Qed.

(** C1, as stated, fails.  The lines below are lines; the first of them
    that has the form is the second one, with value 1.2.3; yet the group
    starts after the quote of the first line and runs over the line end,
    up to the next double quote. *)
Lemma first_declared_line_not_extracted :
  Forall is_line unclosed_then_declared ∧
  first_declared unclosed_then_declared = Some (lit "1.2.3") ∧
  extract_version (join_lines unclosed_then_declared)
    = Some (lit "abc" ++ [LF] ++ lit "__version__ = ") ∧
  extract_version (join_lines unclosed_then_declared) ≠ Some (lit "1.2.3").
Proof.
  split_and!.
  - repeat apply Forall_cons_2; try apply Forall_nil_2;
      apply (bool_decide_unpack (LF ∉ _)); by vm_compute.
  - vm_compute. reflexivity.
  - vm_compute. reflexivity.
  - vm_compute. discriminate.
Qed.

(** C1, amended.  When the first line of the version file that begins with
    [__version__ = ] and a double quote also holds the closing quote, the
    search of variant A returns exactly the text between the two quotes,
    whatever follows on the line and after it; in particular a value of
    the form digits, dot, digits, dot, digits is returned as it stands. *)
Theorem version_of_first_prefixed_line
    (before after : list pystr) :
  Forall is_line before →
  Forall (λ b, ¬ version_prefix `prefix_of` b) before →
  (∀ v rest,
     QUOTE ∉ v →
     extract_version
       (join_lines (before ++ (version_prefix ++ v ++ QUOTE :: rest) :: after))
     = Some v) ∧
  (∀ d1 d2 d3,
     Forall (λ c, is_digit c = true) d1 →
     Forall (λ c, is_digit c = true) d2 →
     Forall (λ c, is_digit c = true) d3 →
     extract_version
       (join_lines
          (before ++ (version_prefix ++ dotted d1 d2 d3 ++ [QUOTE]) :: after))
     = Some (dotted d1 d2 d3)).
Proof.
  intros Hls Hps.
  assert (∀ v rest,
     QUOTE ∉ v →
     extract_version
       (join_lines (before ++ (version_prefix ++ v ++ QUOTE :: rest) :: after))
     = Some v) as Hgen.
  { intros v rest Hq. unfold extract_version.
    rewrite (search_first_prefixed_line before _ after v); [done..|].
    apply line_value_Some. eauto. }
  split; [done|]. intros d1 d2 d3 H1 H2 H3. apply Hgen.
  assert (∀ d, Forall (λ c, is_digit c = true) d → QUOTE ∉ d) as Hd.
  { intros d Hd Hin. rewrite Forall_forall in Hd. by apply Hd in Hin. }
  unfold dotted.
  rewrite not_elem_of_app, not_elem_of_cons, not_elem_of_app, not_elem_of_cons.
  split_and!; auto; done.
Qed.

Lemma version_of_first_prefixed_line_witness :
  extract_version
    (join_lines [lit "import os";
                 version_prefix ++ lit "1.2.3" ++ [QUOTE] ++ lit "  # release";
                 lit "x = 1"])
  = Some (lit "1.2.3").
Proof.
  refine (proj1 (version_of_first_prefixed_line
                   [lit "import os"] [lit "x = 1"] _ _)
            (lit "1.2.3") (lit "  # release") _).
  - repeat apply Forall_cons_2; try apply Forall_nil_2.
    apply (bool_decide_unpack (LF ∉ _)). by vm_compute.
  - repeat apply Forall_cons_2; try apply Forall_nil_2.
    apply after_prefix_None. vm_compute. reflexivity.
  - apply (bool_decide_unpack (QUOTE ∉ _)). by vm_compute.
Defined.

(** C2, as stated, fails.  No line of the version file below has the form
    (the first opens the quote without closing it, the second is a lone
    double quote), the other files are readable, and yet variant A does
    not stop: the group runs over the line end and [setup] is called with
    the version 1.0 followed by \n. *)
Lemma no_matching_line_yet_invoked :
  Forall is_line value_over_two_lines ∧
  Forall (λ l, line_value l = None) value_over_two_lines ∧
  invokes (VariantA.script (fs_with_version (join_lines value_over_two_lines)))
    (scenario_kwargs_A_version (lit "1.0" ++ [LF])) ∧
  ∀ e, ¬ halts_with
           (VariantA.script (fs_with_version (join_lines value_over_two_lines)))
           e.
Proof.
  split_and!.
  - repeat apply Forall_cons_2; try apply Forall_nil_2;
      apply (bool_decide_unpack (LF ∉ _)); by vm_compute.
  - repeat apply Forall_cons_2; try apply Forall_nil_2;
      vm_compute; reflexivity.
  - split; vm_compute; reflexivity.
  - intros e. vm_compute. discriminate.
Qed.

(** C2, amended.  When the version file does not hold, at the start of a
    line, the prefix [__version__ = ] with its double quote followed
    somewhere later in the text by a double quote, variant A never calls
    [setup] and its run stops with an exception; when the other three
    files are readable, that exception is the assertion failure with the
    message naming the version file. *)
Theorem no_declaration_halts (fs : gmap pystr file) (t : pystr) :
  fs !! VariantA.version_path = Some (Text t) →
  ¬ declaration_found t →
  setup_calls (run (VariantA.script fs)).1 = [] ∧
  (∀ kw, ¬ invokes (VariantA.script fs) kw) ∧
  (∃ e, halts_with (VariantA.script fs) e) ∧
  (is_readable fs (lit "README.md") = true →
   is_readable fs (lit "requirements.txt") = true →
   is_readable fs (lit "requirements-dev.txt") = true →
   halts_with (VariantA.script fs) (AssertionError VariantA.assert_msg) ∧
   VariantA.assert_msg = lit "Could not find version in project/__init__.py" ∧
   steps (VariantA.script fs) = take 5 order_A).
Proof.
  intros Ht Hnd.
  assert (re_search version_pattern t = None) as Hs.
  { destruct (re_search version_pattern t) as [m|] eqn:E; [|done].
    destruct Hnd. apply search_found_iff. by rewrite E. }
  split_and!.
  - by apply (no_setup_without_match fs t).
  - intros kw [_ Hc]. by rewrite (no_setup_without_match fs t) in Hc.
  - unfold_script. step_lookups; eauto.
  - unfold is_readable. unfold_script. step_lookups; try discriminate.
    intros _ _ _. split_and!; reflexivity.
Qed.

Lemma no_declaration_halts_witness :
  setup_calls (run (VariantA.script (fs_with_version (lit "# no version")))).1
    = [] ∧
  (∀ kw, ¬ invokes (VariantA.script (fs_with_version (lit "# no version"))) kw) ∧
  (∃ e, halts_with (VariantA.script (fs_with_version (lit "# no version"))) e) ∧
  (is_readable (fs_with_version (lit "# no version")) (lit "README.md") = true →
   is_readable (fs_with_version (lit "# no version")) (lit "requirements.txt")
     = true →
   is_readable (fs_with_version (lit "# no version"))
     (lit "requirements-dev.txt") = true →
   halts_with (VariantA.script (fs_with_version (lit "# no version")))
     (AssertionError VariantA.assert_msg) ∧
   VariantA.assert_msg = lit "Could not find version in project/__init__.py" ∧
   steps (VariantA.script (fs_with_version (lit "# no version")))
     = take 5 order_A).
Proof.
  apply (no_declaration_halts (fs_with_version (lit "# no version"))
           (lit "# no version")).
  - vm_compute. reflexivity.
  - intros Hd%search_found_iff. revert Hd. vm_compute. by intros [m Hm].
Defined.

(** C3, as stated, fails for variant A.  All four files of the directory
    below are readable, the version file holding no declaration; the run
    stops at the assertion and [setup] is not called. *)
Lemma readable_files_yet_no_record :
  Forall (λ p, is_readable (fs_with_version (lit "# no version")) p = true)
    (required_files A) ∧
  halts_with (script_of A (fs_with_version (lit "# no version")))
    (AssertionError VariantA.assert_msg) ∧
  ∀ kw, ¬ invokes (script_of A (fs_with_version (lit "# no version"))) kw.
Proof.
  split_and!.
  - repeat apply Forall_cons_2; try apply Forall_nil_2;
      vm_compute; reflexivity.
  - vm_compute. reflexivity.
  - intros kw [Hr _]. revert Hr. vm_compute. discriminate.
Qed.

(** C3, amended.  When the files a script needs are all readable and, for
    variant A, the version file holds a declaration (the prefix at the
    start of a line, followed later by a double quote), the run ends
    normally and calls [setup] once, with [install_requires] the lines of
    requirements.txt and [tests_require] the lines of
    requirements-dev.txt, as [splitlines] gives them: for files made of
    lines each ended by \n the lists are those lines, in the order of the
    file, duplicates and blank lines included, whatever the lines say. *)
Theorem requirements_passed_in_order
    (v : variant) (fs : gmap pystr file) (d r rd : pystr) :
  fs !! lit "README.md" = Some (Text d) →
  fs !! lit "requirements.txt" = Some (Text r) →
  fs !! lit "requirements-dev.txt" = Some (Text rd) →
  (v = A → ∃ t, fs !! VariantA.version_path = Some (Text t) ∧
                declaration_found t) →
  ∃ kw,
    invokes (script_of v fs) kw ∧
    steps (script_of v fs) = order v ∧
    install_requires kw = splitlines r ∧
    tests_require kw = splitlines rd ∧
    (∀ ls, Forall no_linebreak ls → r = unlines ls →
           install_requires kw = ls) ∧
    (∀ ls, Forall no_linebreak ls → rd = unlines ls →
           tests_require kw = ls).
Proof.
  intros Hd Hr Hrd Hv.
  assert (∃ kw, invokes (script_of v fs) kw ∧ steps (script_of v fs) = order v)
    as (kw & Hi & Hs).
  { destruct v.
    - destruct (Hv eq_refl) as (t & Ht & [m Hm]%search_found_iff).
      destruct (invokes_A fs d r rd t m Hd Hr Hrd Ht Hm) as (kw & ? & _ & ?).
      by exists kw.
    - by apply (invokes_B fs d r rd). }
  exists kw. split; [done|]. split; [done|].
  apply invokes_inv in Hi
    as (d' & r' & rd' & _ & Hr' & Hrd' & _ & _ & Hi & Ht & _).
  assert (r' = r) as -> by congruence.
  assert (rd' = rd) as -> by congruence.
  split_and!; [done | done | |].
  - intros ls Hls ->. by rewrite Hi, splitlines_unlines.
  - intros ls Hls ->. by rewrite Ht, splitlines_unlines.
Qed.

Lemma requirements_passed_in_order_witness :
  ∃ kw,
    invokes (script_of A repeated_fs) kw ∧
    install_requires kw = [lit "numpy"; []; lit "numpy"; lit "not a requirement!"] ∧
    tests_require kw = [lit "pytest"].
Proof.
  destruct (requirements_passed_in_order A repeated_fs (lit "# Title")
              (unlines [lit "numpy"; []; lit "numpy"; lit "not a requirement!"])
              (unlines [lit "pytest"]))
    as (kw & Hi & _ & _ & _ & H1 & H2).
  - vm_compute. reflexivity.
  - vm_compute. reflexivity.
  - vm_compute. reflexivity.
  - intros _. exists (version_prefix ++ lit "1.2.3" ++ [QUOTE]).
    split; [vm_compute; reflexivity|].
    exists [], (lit "1.2.3"), []. split; reflexivity.
  - exists kw. split; [exact Hi|]. split.
    + apply H1; [|reflexivity]. repeat constructor.
    + apply H2; [|reflexivity]. repeat constructor.
Defined.

(** * Further properties of the code *)

(** ** [splitlines] on any text *)

Section Splitlines_any.

Implicit Types (s l acc rest : pystr) (c : N).

Lemma splitlines_from_cons acc c rest :
  splitlines_from acc (c :: rest) =
  if is_linebreak c then rev acc :: splitlines_from [] (skip_lf c rest)
  else splitlines_from (c :: acc) rest.
Proof.
  cbn [splitlines_from]. destruct (is_linebreak c); [|reflexivity]. f_equal.
  destruct rest as [|c' rest']; [reflexivity|]. unfold skip_lf.
  destruct (_ && _); reflexivity.
Qed.

Lemma skip_lf_length c rest : (length (skip_lf c rest) ≤ length rest)%nat.
Proof.
  destruct rest as [|c' rest']; simpl; [lia|].
  destruct (bool_decide (c = CR) && bool_decide (c' = LF)); simpl; lia.
Qed.

(** Induction along the scan of [splitlines_from]. *)
Lemma splitlines_from_ind (P : pystr → pystr → list pystr → Prop) :
  (∀ acc, P acc [] (match acc with [] => [] | _ => [rev acc] end)) →
  (∀ acc c rest,
     is_linebreak c = true →
     P [] (skip_lf c rest) (splitlines_from [] (skip_lf c rest)) →
     P acc (c :: rest) (rev acc :: splitlines_from [] (skip_lf c rest))) →
  (∀ acc c rest,
     is_linebreak c = false →
     P (c :: acc) rest (splitlines_from (c :: acc) rest) →
     P acc (c :: rest) (splitlines_from (c :: acc) rest)) →
  ∀ acc s, P acc s (splitlines_from acc s).
Proof.
  intros Hnil Hbreak Hchar acc s.
  remember (length s) as n eqn:Hn. revert acc s Hn.
  induction n as [n IH] using lt_wf_ind. intros acc [|c rest] Hn.
  - apply Hnil.
  - rewrite splitlines_from_cons. simpl in Hn.
    destruct (is_linebreak c) eqn:Hc.
    + apply Hbreak; [done|].
      apply (IH (length (skip_lf c rest))); [|done].
      pose proof (skip_lf_length c rest). lia.
    + apply Hchar; [done|]. apply (IH (length rest)); [lia | done].
Qed.

Lemma without_linebreaks_skip_lf c rest :
  without_linebreaks (skip_lf c rest) = without_linebreaks rest.
Proof.
  destruct rest as [|c' rest']; simpl; [done|].
  destruct (bool_decide (c = CR)); simpl; [|done].
  case_bool_decide as Hc'; [|done]. subst c'.
  unfold without_linebreaks. by rewrite filter_cons_False.
Qed.

Lemma splitlines_from_lines_clean acc s :
  no_linebreak acc → Forall no_linebreak (splitlines_from acc s).
Proof.
  apply (splitlines_from_ind
           (λ acc s r, no_linebreak acc → Forall no_linebreak r)); clear.
  - intros [|a acc] Hacc; [done|]. apply Forall_cons. split; [|done].
    by apply Forall_rev.
  - intros acc c rest _ IH Hacc. apply Forall_cons. split.
    + by apply Forall_rev.
    + apply IH. apply Forall_nil_2.
  - intros acc c rest Hc IH Hacc. apply IH. by apply Forall_cons.
Qed.

Lemma splitlines_from_concat acc s :
  concat (splitlines_from acc s) = rev acc ++ without_linebreaks s.
Proof.
  apply (splitlines_from_ind
           (λ acc s r, concat r = rev acc ++ without_linebreaks s)); clear.
  - intros [|a acc]; [done|]. simpl. by rewrite !app_nil_r.
  - intros acc c rest Hc IH. simpl concat. rewrite IH. simpl.
    rewrite without_linebreaks_skip_lf. unfold without_linebreaks.
    rewrite filter_cons_False; [done|]. by rewrite Hc.
  - intros acc c rest Hc IH. rewrite IH. unfold without_linebreaks.
    rewrite filter_cons_True by done. simpl. by rewrite <- app_assoc.
Qed.

Lemma splitlines_from_nonempty acc s :
  acc ≠ [] → splitlines_from acc s ≠ [].
Proof.
  apply (splitlines_from_ind (λ acc s r, acc ≠ [] → r ≠ [])); clear.
  - by intros [|a acc].
  - done.
  - intros acc c rest _ IH _. by apply IH.
Qed.

Lemma skip_lf_snoc c rest b :
  rest ≠ [] → skip_lf c (rest ++ [b]) = skip_lf c rest ++ [b].
Proof.
  destruct rest as [|c' rest']; [done|]. intros _. simpl.
  by destruct (bool_decide (c = CR) && bool_decide (c' = LF)).
Qed.

Lemma skip_lf_last c x rest :
  is_linebreak c = true →
  last (c :: rest) = Some x → is_linebreak x = false →
  rest ≠ [] ∧ last (skip_lf c rest) = Some x.
Proof.
  intros Hc Hlast Hx. destruct rest as [|c' rest'].
  - simpl in Hlast. congruence.
  - split; [done|]. rewrite last_cons_cons in Hlast. simpl.
    destruct (bool_decide (c = CR)); simpl; [|done].
    case_bool_decide as Hc'; [|done]. subst c'.
    destruct rest' as [|c'' rest'']; [|by rewrite last_cons_cons in Hlast].
    simpl in Hlast. injection Hlast as <-. done.
Qed.

Lemma splitlines_from_final_boundary acc s b :
  is_linebreak b = true →
  (s = [] → acc ≠ []) →
  (∀ x, last s = Some x → is_linebreak x = false) →
  splitlines_from acc (s ++ [b]) = splitlines_from acc s.
Proof.
  intros Hb. revert acc s.
  apply (splitlines_from_ind
           (λ acc s r,
              (s = [] → acc ≠ []) →
              (∀ x, last s = Some x → is_linebreak x = false) →
              splitlines_from acc (s ++ [b]) = r)).
  - intros acc Hacc _. simpl. rewrite Hb.
    destruct acc as [|a acc]; [by destruct Hacc | done].
  - intros acc c rest Hc IH _ Hlast.
    destruct (last (c :: rest)) as [x|] eqn:Hx; [|by apply last_None in Hx].
    destruct (skip_lf_last c x rest Hc Hx (Hlast x eq_refl)) as [Hne Hx'].
    change ((c :: rest) ++ [b]) with (c :: (rest ++ [b])).
    rewrite splitlines_from_cons, Hc, skip_lf_snoc by done. f_equal.
    apply IH.
    + intros Hnil. by rewrite Hnil in Hx'.
    + intros y Hy. rewrite Hx' in Hy. injection Hy as <-. by apply Hlast.
  - intros acc c rest Hc IH _ Hlast.
    change ((c :: rest) ++ [b]) with (c :: (rest ++ [b])).
    rewrite splitlines_from_cons, Hc. apply IH; [done|].
    intros x Hx. apply Hlast. destruct rest as [|c' rest']; [done|].
    by rewrite last_cons_cons.
Qed.

End Splitlines_any.

Lemma splitlines_from_boundary acc l c rest :
  no_linebreak l → is_linebreak c = true →
  splitlines_from acc (l ++ c :: rest)
  = (rev acc ++ l) :: splitlines_from [] (skip_lf c rest).
Proof.
  revert acc. induction l as [|a l IH]; intros acc Hl Hc.
  - simpl app. by rewrite splitlines_from_cons, Hc, app_nil_r.
  - apply Forall_cons in Hl as [Ha Hl].
    change ((a :: l) ++ c :: rest) with (a :: (l ++ c :: rest)).
    rewrite splitlines_from_cons, Ha, IH by done. simpl.
    by rewrite <- app_assoc.
Qed.

(** X1.  No requirement passed to [setup] holds a line boundary: the
    entries of [install_requires] and [tests_require] are free of \n, \r
    and the other boundaries of [splitlines], whatever the files hold. *)
Theorem requirements_hold_no_linebreak
    (v : variant) (fs : gmap pystr file) (kw : setup_kwargs) :
  invokes (script_of v fs) kw →
  Forall no_linebreak (install_requires kw) ∧
  Forall no_linebreak (tests_require kw).
Proof.
  intros (d & r & rd & _ & _ & _ & _ & _ & -> & -> & _)%invokes_inv.
  split; apply splitlines_from_lines_clean, Forall_nil_2.
Qed.

Lemma requirements_hold_no_linebreak_witness :
  Forall no_linebreak (install_requires scenario_kwargs_A) ∧
  Forall no_linebreak (tests_require scenario_kwargs_A).
Proof.
  apply (requirements_hold_no_linebreak A scenario_fs).
  split; vm_compute; reflexivity.
Defined.

(** X2.  [splitlines] drops the line boundaries and nothing else: the
    lines it returns, put end to end, are the text without its boundary
    characters, in the same order. *)
Theorem splitlines_keeps_characters (s : pystr) :
  concat (splitlines s) = without_linebreaks s.
Proof. unfold splitlines. by rewrite splitlines_from_concat. Qed.

(** X3.  The list of requirements is empty only for the empty file: any
    text with at least one character, be it a lone \n, yields at least
    one entry. *)
Theorem splitlines_empty_iff (s : pystr) : splitlines s = [] ↔ s = [].
Proof.
  split; [|by intros ->]. destruct s as [|c rest]; [done|].
  unfold splitlines. rewrite splitlines_from_cons.
  destruct (is_linebreak c); [done|]. intros H.
  by apply splitlines_from_nonempty in H.
Qed.

(** X4.  A line ends at every boundary character of [splitlines], not only
    at \n: a form feed, a vertical tab or U+2028 inside a requirement
    splits it in two.  The pair \r\n ends the line once. *)
Theorem splitlines_at_every_boundary (l : pystr) (c : char) :
  no_linebreak l → is_linebreak c = true →
  (∀ rest, ¬ (c = CR ∧ head rest = Some LF) →
           splitlines (l ++ c :: rest) = l :: splitlines rest) ∧
  (∀ rest, splitlines (l ++ CR :: LF :: rest) = l :: splitlines rest).
Proof.
  intros Hl Hc. split.
  - intros rest Hcr. unfold splitlines.
    rewrite splitlines_from_boundary by done. simpl. f_equal. f_equal.
    destruct rest as [|c' rest']; [done|]. simpl.
    destruct (decide (c = CR)) as [->|Hne].
    + destruct (decide (c' = LF)) as [->|Hne']; [by destruct Hcr|].
      by rewrite (bool_decide_false (c' = LF)), andb_false_r.
    + by rewrite (bool_decide_false (c = CR)).
  - intros rest. unfold splitlines.
    by rewrite splitlines_from_boundary.
Qed.

Lemma splitlines_at_every_boundary_witness :
  splitlines (lit "numpy" ++ [12] ++ lit "torch") = [lit "numpy"; lit "torch"] ∧
  splitlines (lit "numpy" ++ [CR; LF] ++ lit "torch")
    = [lit "numpy"; lit "torch"].
Proof.
  destruct (splitlines_at_every_boundary (lit "numpy") 12) as [H1 _];
    [repeat constructor | reflexivity |].
  destruct (splitlines_at_every_boundary (lit "numpy") CR) as [_ H2];
    [repeat constructor | reflexivity |].
  split.
  - apply (H1 (lit "torch")). by intros [? _].
  - apply (H2 (lit "torch")).
Defined.

(** X5.  One line boundary at the very end of a file changes nothing: when
    the text ends in a character that is no boundary, appending \n (or any
    other boundary) gives the same list of lines. *)
Theorem splitlines_final_boundary (s : pystr) (x b : char) :
  last s = Some x → is_linebreak x = false → is_linebreak b = true →
  splitlines (s ++ [b]) = splitlines s.
Proof.
  intros Hx Hnb Hb. unfold splitlines.
  apply splitlines_from_final_boundary; [done | |].
  - intros ->. done.
  - intros y Hy. congruence.
Qed.

Lemma splitlines_final_boundary_witness :
  splitlines ((lit "numpy" ++ [LF] ++ lit "torch") ++ [LF])
  = splitlines (lit "numpy" ++ [LF] ++ lit "torch").
Proof.
  apply (splitlines_final_boundary _ 104 LF); reflexivity.
Defined.

(** ** The search, further *)

Section Search_further.

Implicit Types (s l v pre post : pystr) (prev : option char).

(** The match is the leftmost one: no declaration starts before it. *)
Lemma search_from_leftmost prev s m :
  search_from version_pattern prev s = Some m →
  ∃ pre v post,
    s = pre ++ version_prefix ++ v ++ QUOTE :: post ∧ (QUOTE ∉ v) ∧
    m = Closed v ∧
    at_beginning_line (from_option Some prev (last pre)) = true ∧
    ∀ pre' v' post',
      s = pre' ++ version_prefix ++ v' ++ QUOTE :: post' →
      at_beginning_line (from_option Some prev (last pre')) = true →
      (length pre ≤ length pre')%nat.
Proof.
  revert prev. induction s as [|c s IH]; intros prev;
    rewrite search_from_unfold.
  - destruct (at_beginning_line prev) eqn:Hb; [|done].
    destruct (line_value []) as [v|] eqn:Hv; [|done]. simpl. intros [= <-].
    apply line_value_Some in Hv as [Hq [post Hs]].
    exists [], v, post. split_and!; try done; intros; simpl; lia.
  - destruct (if at_beginning_line prev
              then Closed <$> line_value (c :: s) else None)
      as [g|] eqn:Hat.
    + intros [= <-]. destruct (at_beginning_line prev) eqn:Hb; [|done].
      destruct (line_value (c :: s)) as [v|] eqn:Hv; [|done].
      injection Hat as <-. apply line_value_Some in Hv as [Hq [post Hs]].
      exists [], v, post. split_and!; try done; intros; simpl; lia.
    + intros (pre & v & post & -> & Hq & -> & Hb' & Hmin)%IH.
      exists (c :: pre), v, post. split_and!; try done.
      * rewrite last_cons. by destruct (last pre).
      * intros pre' v' post' Hs' Hb''. destruct pre' as [|c' pre'].
        -- simpl in Hb''. rewrite Hb'' in Hat.
           assert (is_Some (line_value (c :: pre ++ version_prefix ++ v
                                          ++ QUOTE :: post))) as [w Hw].
           { apply line_value_is_Some. exists v', post'. exact Hs'. }
           by rewrite Hw in Hat.
        -- rewrite <- app_comm_cons in Hs'. injection Hs' as <- Hs'. simpl.
           apply le_n_S, (Hmin pre' v' post' Hs').
           rewrite last_cons in Hb''. by destruct (last pre').
Qed.

(** Inside a line no position is a line start. *)
Lemma search_inside_last_line l prev :
  LF ∉ l → at_beginning_line prev = false →
  search_from version_pattern prev l = None.
Proof.
  revert prev. induction l as [|c l IH]; intros prev Hl Hb;
    rewrite search_from_unfold, Hb; [done|].
  apply not_elem_of_cons in Hl as [Hc Hl]. apply IH; [done|].
  simpl. by apply bool_decide_eq_false.
Qed.

Lemma search_last_line l prev :
  LF ∉ l → line_value l = None →
  search_from version_pattern prev l = None.
Proof.
  intros Hl Hv. rewrite search_from_unfold, Hv.
  replace (if at_beginning_line prev then Closed <$> None else None)
    with (@None group_state) by (by destruct (at_beginning_line prev)).
  destruct l as [|c l]; [done|].
  apply not_elem_of_cons in Hl as [Hc Hl].
  apply search_inside_last_line; [done|].
  simpl. by apply bool_decide_eq_false.
Qed.

Lemma search_no_prefixed_line prev ls :
  Forall is_line ls →
  Forall (λ l, ¬ version_prefix `prefix_of` l) ls →
  search_from version_pattern prev (join_lines ls) = None.
Proof.
  intros Hls. revert prev. induction Hls as [|l ls Hl Hls IH]; intros prev Hps.
  - by rewrite search_from_unfold; destruct (at_beginning_line prev).
  - apply Forall_cons in Hps as [Hp Hps]. rewrite join_lines_cons.
    destruct ls as [|l' ls].
    + rewrite app_nil_r. apply search_last_line; [done|].
      unfold line_value. by apply after_prefix_None in Hp as ->.
    + rewrite search_skip_line; [by apply IH | done |].
      by apply line_value_other_line.
Qed.

End Search_further.

(** X6.  Whenever variant A calls [setup], the version it passes stands in
    the version file: right after [__version__ = ] and a double quote that
    begin a line, and right before the next double quote; the version
    itself holds no double quote. *)
Theorem version_stands_in_file (fs : gmap pystr file) (kw : setup_kwargs) :
  invokes (VariantA.script fs) kw →
  ∃ t pre post,
    fs !! VariantA.version_path = Some (Text t) ∧
    t = pre ++ version_prefix ++ version kw ++ QUOTE :: post ∧
    line_start pre ∧ QUOTE ∉ version kw.
Proof.
  intros Hi. apply (invokes_inv A) in Hi
    as (_ & _ & _ & _ & _ & _ & _ & _ & _ & _ & _ & t & m & Ht & Hm & Hv).
  apply search_from_inv in Hm as (pre & v & post & -> & Hq & -> & Hb).
  simpl in Hv. rewrite Hv.
  exists (pre ++ version_prefix ++ v ++ QUOTE :: post), pre, post.
  split_and!; try done. unfold line_start. by destruct (last pre).
Qed.

Lemma version_stands_in_file_witness :
  ∃ t pre post,
    scenario_fs !! VariantA.version_path = Some (Text t) ∧
    t = pre ++ version_prefix ++ version scenario_kwargs_A ++ QUOTE :: post ∧
    line_start pre ∧ QUOTE ∉ version scenario_kwargs_A.
Proof.
  apply (version_stands_in_file scenario_fs).
  split; vm_compute; reflexivity.
Defined.

(** X7.  The search returns the leftmost declaration: when a version is
    extracted, it holds no double quote and is the text between the prefix
    at a line start and the next double quote, and no other occurrence of
    the prefix at a line start with a double quote after it begins earlier
    in the text. *)
Theorem extract_version_leftmost (t v : pystr) :
  extract_version t = Some v →
  (QUOTE ∉ v) ∧
  ∃ pre post,
    t = pre ++ version_prefix ++ v ++ QUOTE :: post ∧ line_start pre ∧
    ∀ pre' v' post',
      t = pre' ++ version_prefix ++ v' ++ QUOTE :: post' → line_start pre' →
      (length pre ≤ length pre')%nat.
Proof.
  unfold extract_version.
  destruct (re_search version_pattern t) as [m|] eqn:Hm; [|done].
  apply search_from_leftmost in Hm
    as (pre & w & post & -> & Hq & -> & Hb & Hmin).
  simpl. intros [= <-]. split; [done|]. exists pre, post. split_and!.
  - done.
  - unfold line_start. by destruct (last pre).
  - intros pre' v' post' Hs Hb'. apply (Hmin pre' v' post' Hs).
    unfold line_start in Hb'. by destruct (last pre').
Qed.

Lemma extract_version_leftmost_witness :
  (QUOTE ∉ lit "1.0") ∧
  ∃ pre post,
    join_lines [version_prefix ++ lit "1.0" ++ [QUOTE];
                version_prefix ++ lit "2.0" ++ [QUOTE]]
      = pre ++ version_prefix ++ lit "1.0" ++ QUOTE :: post ∧
    line_start pre ∧
    ∀ pre' v' post',
      join_lines [version_prefix ++ lit "1.0" ++ [QUOTE];
                  version_prefix ++ lit "2.0" ++ [QUOTE]]
        = pre' ++ version_prefix ++ v' ++ QUOTE :: post' →
      line_start pre' → (length pre ≤ length pre')%nat.
Proof.
  apply extract_version_leftmost. vm_compute. reflexivity.
Defined.

(** X8.  The declaration is found only at the very start of a line, in
    this exact spelling: when no line of the version file begins with
    [__version__ = ] and a double quote (the declaration is indented,
    written without the spaces, or with single quotes), nothing is
    extracted. *)
Theorem no_prefixed_line_no_version (ls : list pystr) :
  Forall is_line ls →
  Forall (λ l, ¬ version_prefix `prefix_of` l) ls →
  extract_version (join_lines ls) = None.
Proof.
  intros Hls Hps. unfold extract_version, re_search.
  by rewrite search_no_prefixed_line.
Qed.

Lemma no_prefixed_line_no_version_witness :
  extract_version
    (join_lines [lit "import os";
                 lit "    " ++ version_prefix ++ lit "1.2.3" ++ [QUOTE];
                 lit "__version__ = '1.2.3'";
                 lit "__version__=" ++ [QUOTE] ++ lit "1.2.3" ++ [QUOTE]])
  = None.
Proof.
  apply no_prefixed_line_no_version.
  - repeat apply Forall_cons_2; try apply Forall_nil_2;
      apply (bool_decide_unpack (LF ∉ _)); by vm_compute.
  - repeat apply Forall_cons_2; try apply Forall_nil_2;
      apply after_prefix_None; vm_compute; reflexivity.
Defined.

(** ** The scripts, further *)

(** The literal fields of the record. *)
Lemma invokes_literals (v : variant) (fs : gmap pystr file) (kw : setup_kwargs) :
  invokes (script_of v fs) kw →
  name kw = lit "ml-project" ∧
  author kw = lit "Benjamin Bolte" ∧
  python_requires kw = lit ">=3.10" ∧
  match v with
  | A =>
      description kw = lit "Template repository for ML projects" ∧
      url kw = lit "https://github.com/codekansas/ml-project-template" ∧
      setup_requires kw
        = Some [lit "cmake"; lit "mypy"; lit "pybind11"; lit "torch"]
  | B =>
      description kw = lit "Empty template repository for ML projects" ∧
      url kw = lit "https://github.com/codekansas/ml-starter" ∧
      setup_requires kw = None
  end.
Proof.
  destruct v; unfold invokes; unfold_script; intros [Hr Hc];
    step_lookups; simpl in Hr, Hc; try discriminate;
    injection Hc as <-; simpl; split_and!; reflexivity.
Qed.

(** X9.  A run reads nothing but the files of its script: two directories
    that agree on README.md, requirements.txt, requirements-dev.txt and,
    for variant A, the version file give the same run, step for step and
    with the same outcome.  Variant B in particular never looks at the
    version file. *)
Theorem run_reads_only_required (v : variant) (fs1 fs2 : gmap pystr file) :
  (∀ p, p ∈ required_files v → fs1 !! p = fs2 !! p) →
  run (script_of v fs1) = run (script_of v fs2).
Proof.
  intros Hagree.
  assert (fs1 !! lit "README.md" = fs2 !! lit "README.md") as H1.
  { apply Hagree. destruct v; apply list_elem_of_here. }
  assert (fs1 !! lit "requirements.txt" = fs2 !! lit "requirements.txt") as H2.
  { apply Hagree. destruct v; apply list_elem_of_further, list_elem_of_here. }
  assert (fs1 !! lit "requirements-dev.txt"
          = fs2 !! lit "requirements-dev.txt") as H3.
  { apply Hagree.
    destruct v; do 2 apply list_elem_of_further; apply list_elem_of_here. }
  destruct v; unfold_script; rewrite H1, H2, H3; [|reflexivity].
  assert (fs1 !! VariantA.version_path = fs2 !! VariantA.version_path) as H4.
  { apply Hagree. do 3 apply list_elem_of_further. apply list_elem_of_here. }
  by rewrite H4.
Qed.

Lemma run_reads_only_required_witness :
  run (script_of B scenario_fs)
  = run (script_of B (delete VariantA.version_path scenario_fs)).
Proof.
  apply run_reads_only_required. intros p Hp.
  unfold required_files in Hp. rewrite app_nil_r in Hp.
  repeat (apply elem_of_cons in Hp as [->|Hp]; [vm_compute; reflexivity|]).
  by apply elem_of_nil in Hp.
Defined.

(** X10.  The script stops at the first file, in reading order, that it
    cannot read: the exception names that file, the files before it have
    been opened and the files after it are never opened. *)
Theorem first_unreadable_file_reported
    (v : variant) (fs : gmap pystr file) (ok rest : list pystr) (p : pystr) :
  required_files v = ok ++ p :: rest →
  Forall (λ q, is_readable fs q = true) ok →
  is_readable fs p = false →
  run (script_of v fs) = (EvOpen <$> (ok ++ [p]), inl (access_error fs p)).
Proof.
  intros Heq Hok Hp. unfold required_files in Heq.
  destruct v; cbn [app] in Heq;
    destruct ok as [|a [|b [|c [|d ok]]]]; cbn [app] in Heq;
    try discriminate Heq; simplify_eq;
    repeat match goal with
           | H : Forall _ (_ :: _) |- _ => apply Forall_cons in H as [? H]
           end;
    try (by destruct ok);
    unfold is_readable, access_error in *; unfold_script;
    step_lookups; try discriminate; reflexivity.
Qed.

Lemma first_unreadable_file_reported_witness :
  run (script_of A (delete (lit "requirements.txt") scenario_fs))
  = (EvOpen <$> ([lit "README.md"] ++ [lit "requirements.txt"]),
     inl (access_error (delete (lit "requirements.txt") scenario_fs)
            (lit "requirements.txt"))).
Proof.
  apply (first_unreadable_file_reported A _ [lit "README.md"]
           [lit "requirements-dev.txt"; VariantA.version_path]).
  - reflexivity.
  - repeat apply Forall_cons_2; try apply Forall_nil_2. vm_compute. reflexivity.
  - vm_compute. reflexivity.
Defined.

(** X11.  When each variant reaches [setup]: variant B exactly when its
    three files are readable; variant A exactly when variant B does and
    the version file is readable and holds a declaration (the prefix at a
    line start, followed later by a double quote). *)
Theorem success_conditions (fs : gmap pystr file) :
  ((∃ kw, invokes (VariantB.script fs) kw) ↔
   Forall (λ p, is_readable fs p = true) (required_files B)) ∧
  ((∃ kw, invokes (VariantA.script fs) kw) ↔
   (∃ kw, invokes (VariantB.script fs) kw) ∧
   ∃ t, fs !! VariantA.version_path = Some (Text t) ∧ declaration_found t).
Proof.
  assert ((∃ kw, invokes (VariantB.script fs) kw) ↔
          ∃ d r rd, fs !! lit "README.md" = Some (Text d) ∧
                    fs !! lit "requirements.txt" = Some (Text r) ∧
                    fs !! lit "requirements-dev.txt" = Some (Text rd)) as HB.
  { split.
    - intros [kw Hi]. apply (invokes_inv B) in Hi
        as (d & r & rd & Hd & Hr & Hrd & _). by exists d, r, rd.
    - intros (d & r & rd & Hd & Hr & Hrd).
      destruct (invokes_B fs d r rd Hd Hr Hrd) as (kw & Hi & _). by exists kw. }
  split.
  - rewrite HB. unfold required_files. rewrite app_nil_r.
    rewrite !Forall_cons. unfold is_readable. split.
    + intros (d & r & rd & -> & -> & ->). split_and!; try done.
    + intros (H1 & H2 & H3 & _).
      destruct (fs !! lit "README.md") as [[d|]|]; try done.
      destruct (fs !! lit "requirements.txt") as [[r|]|]; try done.
      destruct (fs !! lit "requirements-dev.txt") as [[rd|]|]; try done.
      by exists d, r, rd.
  - rewrite HB. split.
    + intros [kw Hi]. apply (invokes_inv A) in Hi
        as (d & r & rd & Hd & Hr & Hrd & _ & _ & _ & _ & _ & t & m & Ht & Hm & _).
      split; [by exists d, r, rd|]. exists t. split; [done|].
      apply search_found_iff. by rewrite Hm.
    + intros [(d & r & rd & Hd & Hr & Hrd) (t & Ht & [m Hm]%search_found_iff)].
      destruct (invokes_A fs d r rd t m Hd Hr Hrd Ht Hm) as (kw & Hi & _).
      by exists kw.
Qed.

(** X12.  On one directory the two variants pass the same values for
    everything that comes from the three shared files, and the same name,
    author and language constraint; variant A alone passes build
    requirements. *)
Theorem variants_agree_on_shared_fields
    (fs : gmap pystr file) (kwA kwB : setup_kwargs) :
  invokes (VariantA.script fs) kwA →
  invokes (VariantB.script fs) kwB →
  long_description kwA = long_description kwB ∧
  long_description_content_type kwA = long_description_content_type kwB ∧
  install_requires kwA = install_requires kwB ∧
  tests_require kwA = tests_require kwB ∧
  extras_require kwA = extras_require kwB ∧
  name kwA = name kwB ∧ author kwA = author kwB ∧
  python_requires kwA = python_requires kwB ∧
  setup_requires kwA ≠ None ∧ setup_requires kwB = None.
Proof.
  intros HA HB.
  destruct (invokes_literals A fs kwA HA) as (-> & -> & -> & _ & _ & ->).
  destruct (invokes_literals B fs kwB HB) as (-> & -> & -> & _ & _ & ->).
  apply (invokes_inv A) in HA
    as (d & r & rd & Hd & Hr & Hrd & -> & -> & -> & -> & -> & _).
  apply (invokes_inv B) in HB
    as (d' & r' & rd' & Hd' & Hr' & Hrd' & -> & -> & -> & -> & -> & _).
  assert (d' = d) as -> by congruence.
  assert (r' = r) as -> by congruence.
  assert (rd' = rd) as -> by congruence.
  split_and!; done.
Qed.

Lemma variants_agree_on_shared_fields_witness :
  long_description scenario_kwargs_A = long_description scenario_kwargs_B ∧
  long_description_content_type scenario_kwargs_A
    = long_description_content_type scenario_kwargs_B ∧
  install_requires scenario_kwargs_A = install_requires scenario_kwargs_B ∧
  tests_require scenario_kwargs_A = tests_require scenario_kwargs_B ∧
  extras_require scenario_kwargs_A = extras_require scenario_kwargs_B ∧
  name scenario_kwargs_A = name scenario_kwargs_B ∧
  author scenario_kwargs_A = author scenario_kwargs_B ∧
  python_requires scenario_kwargs_A = python_requires scenario_kwargs_B ∧
  setup_requires scenario_kwargs_A ≠ None ∧
  setup_requires scenario_kwargs_B = None.
Proof.
  apply (variants_agree_on_shared_fields scenario_fs);
    split; vm_compute; reflexivity.
Defined.

(** X13.  Apart from the version of variant A, the metadata of the record
    does not depend on the directory: two runs of the same script on any
    two directories pass the same name, description, author, URL, format
    tag, language constraint and build requirements. *)
Theorem metadata_independent_of_files
    (v : variant) (fs1 fs2 : gmap pystr file) (kw1 kw2 : setup_kwargs) :
  invokes (script_of v fs1) kw1 →
  invokes (script_of v fs2) kw2 →
  name kw1 = name kw2 ∧ description kw1 = description kw2 ∧
  author kw1 = author kw2 ∧ url kw1 = url kw2 ∧
  long_description_content_type kw1 = long_description_content_type kw2 ∧
  python_requires kw1 = python_requires kw2 ∧
  setup_requires kw1 = setup_requires kw2.
Proof.
  intros H1 H2.
  pose proof (invokes_literals v fs1 kw1 H1) as (-> & -> & -> & L1).
  pose proof (invokes_literals v fs2 kw2 H2) as (-> & -> & -> & L2).
  apply invokes_inv in H1 as (_ & _ & _ & _ & _ & _ & _ & -> & _).
  apply invokes_inv in H2 as (_ & _ & _ & _ & _ & _ & _ & -> & _).
  destruct v; destruct L1 as (-> & -> & ->), L2 as (-> & -> & ->);
    split_and!; reflexivity.
Qed.

Lemma metadata_independent_of_files_witness :
  name scenario_kwargs_A = name (scenario_kwargs_A_version (lit "2.0")) ∧
  description scenario_kwargs_A
    = description (scenario_kwargs_A_version (lit "2.0")) ∧
  author scenario_kwargs_A
    = author (scenario_kwargs_A_version (lit "2.0")) ∧
  url scenario_kwargs_A = url (scenario_kwargs_A_version (lit "2.0")) ∧
  long_description_content_type scenario_kwargs_A
    = long_description_content_type
        (scenario_kwargs_A_version (lit "2.0")) ∧
  python_requires scenario_kwargs_A
    = python_requires (scenario_kwargs_A_version (lit "2.0")) ∧
  setup_requires scenario_kwargs_A
    = setup_requires (scenario_kwargs_A_version (lit "2.0")).
Proof.
  apply (metadata_independent_of_files A scenario_fs
           (fs_with_version (version_prefix ++ lit "2.0" ++ [QUOTE])));
    split; vm_compute; reflexivity.
Defined.

(** ** Text after the declaration *)

Section Search_stable.

Implicit Types (s l v pre post more : pystr) (prev : option char).

Lemma after_prefix_None_long p s more :
  after_prefix p s = None → (length p ≤ length s)%nat →
  after_prefix p (s ++ more) = None.
Proof.
  revert s. induction p as [|a p IH]; intros [|b s]; simpl; try done.
  - lia.
  - case_bool_decide; [|done]. intros Hn Hlen. apply IH; [done | lia].
Qed.

Lemma elem_of_suffix_after (x : N) l1 r l2 post :
  l1 ++ r = l2 ++ x :: post → (length l1 ≤ length l2)%nat → x ∈ r.
Proof.
  intros Heq Hlen. apply (f_equal (drop (length l1))) in Heq.
  rewrite drop_app_length, drop_app_le in Heq by done.
  rewrite Heq. apply elem_of_app. right. left.
Qed.

(** A failed attempt stays failed when text is appended, as long as a
    declaration starts later in the text. *)
Lemma line_value_None_stable s pre v post more :
  line_value s = None →
  s = pre ++ version_prefix ++ v ++ QUOTE :: post → pre ≠ [] →
  line_value (s ++ more) = None.
Proof.
  intros Hn Hs Hpre. unfold line_value in *.
  destruct (after_prefix version_prefix s) as [r|] eqn:Hap.
  - simpl in Hn. apply until_quote_None in Hn. destruct Hn.
    apply after_prefix_Some in Hap.
    apply (elem_of_suffix_after QUOTE version_prefix r
             (pre ++ version_prefix ++ v) post).
    + rewrite <- Hap, Hs. by rewrite <- !app_assoc.
    + rewrite !length_app. lia.
  - rewrite after_prefix_None_long; [done..|].
    rewrite Hs, !length_app. lia.
Qed.

Lemma search_from_app prev s more m :
  search_from version_pattern prev s = Some m →
  search_from version_pattern prev (s ++ more) = Some m.
Proof.
  revert prev. induction s as [|c s IH]; intros prev;
    rewrite (search_from_unfold prev (_ ++ more)), search_from_unfold.
  - destruct (at_beginning_line prev); [|done].
    destruct (line_value []) as [v|] eqn:Hv; [|done].
    by rewrite (line_value_app [] v more Hv).
  - destruct (at_beginning_line prev) eqn:Hb.
    + destruct (line_value (c :: s)) as [v|] eqn:Hv.
      * by rewrite (line_value_app (c :: s) v more Hv).
      * intros Hm.
        assert (search_from version_pattern (Some c) s = Some m) as Hm'
          by exact Hm.
        destruct (search_from_inv _ _ _ Hm')
          as (pre & v & post & Hs & _ & _ & _).
        rewrite (line_value_None_stable (c :: s) (c :: pre) v post more);
          [simpl; by apply IH | done | by rewrite Hs | done].
    + simpl. apply IH.
Qed.

End Search_stable.

(** X14.  Text added after the version file never changes the version:
    once a version is extracted from a text, it is extracted from every
    text that begins with it. *)
Theorem extract_version_stable (t more v : pystr) :
  extract_version t = Some v → extract_version (t ++ more) = Some v.
Proof.
  unfold extract_version, re_search.
  destruct (search_from version_pattern None t) as [m|] eqn:Hm; [|done].
  intros Hv. by rewrite (search_from_app None t more m Hm).
Qed.

Lemma extract_version_stable_witness :
  extract_version
    ((version_prefix ++ lit "1.2.3" ++ [QUOTE])
       ++ [LF] ++ version_prefix ++ lit "9.9.9" ++ [QUOTE])
  = Some (lit "1.2.3").
Proof.
  apply extract_version_stable. vm_compute. reflexivity.
Defined.
